(** * Reddit research skill: the API wrapper, its mappers and the CLI filters

    A shallow embedding of [lib/api.ts] and of the parts of
    [reddit-search.ts] that decide what a command returns.

    - JavaScript values are an inductive type [value]; numbers are the
      integers plus [NaN]. The counters, timestamps and thresholds the
      program handles are integral and far below 2^53, where the
      arithmetic of doubles is exact and a number prints as its decimal
      digits; fractions, infinities and larger magnitudes are outside the
      model.
    - A [throw] is the [Throw] case of [result]; code that also touches the
      module-level token cache, the clock and the network runs in the
      state-and-exception monad [M] over a [world].
    - An object is the list of its own properties; the first binding of a
      key is the property's value. *)

From Stdlib Require Import Ascii.
From stdpp Require Import prelude strings gmap pretty.

Open Scope string_scope.

(** ** JavaScript values *)

Inductive number := NaN | Int (z : Z).

Unset Elimination Schemes.
Inductive value :=
| VUndef
| VNull
| VBool (b : bool)
| VNum (n : number)
| VStr (s : string)
| VArr (items : list value)
| VObj (props : list (string * value)).
Set Elimination Schemes.

Inductive exn :=
| Error (msg : string)
| TypeError
| SyntaxError
| Exit (code : Z).

Inductive result (A : Type) :=
| Ok (a : A)
| Throw (e : exn).
Arguments Ok {A} a.
Arguments Throw {A} e.

#[global] Instance result_bind : MBind result :=
  fun A B f m => match m with Ok a => f a | Throw e => Throw e end.
#[global] Instance result_ret : MRet result := fun A a => Ok a.

#[global] Instance number_eq_dec : EqDecision number.
Proof. solve_decision. Defined.

(** [ToBoolean]: what [if (v)], [!v], [a || b] and [a && b] test. *)
Definition truthy (v : value) : bool :=
  match v with
  | VUndef | VNull => false
  | VBool b => b
  | VNum NaN => false
  | VNum (Int z) => negb (z =? 0)%Z
  | VStr s => negb (String.eqb s "")
  | VArr _ | VObj _ => true
  end.

(** [a || b] on values that are already evaluated. *)
Definition js_or (a b : value) : value := if truthy a then a else b.

Definition nullish (v : value) : bool :=
  match v with VUndef | VNull => true | _ => false end.

Fixpoint lookup_prop (k : string) (ps : list (string * value)) : value :=
  match ps with
  | [] => VUndef
  | (k', v) :: ps' => if String.eqb k k' then v else lookup_prop k ps'
  end.

(** [v.k] for the property names the program reads ([data], [kind],
    [children], [id], ...): none of them is found on a prototype, so on a
    string, number, boolean or array the read gives [undefined]; on
    [undefined] and [null] it throws. *)
Definition getProp (v : value) (k : string) : result value :=
  match v with
  | VUndef | VNull => Throw TypeError
  | VObj ps => Ok (lookup_prop k ps)
  | _ => Ok VUndef
  end.

(** [v?.k] *)
Definition getPropOpt (v : value) (k : string) : result value :=
  if nullish v then Ok VUndef else getProp v k.

(** [v[i]] for a literal index. *)
Definition getIndex (v : value) (i : nat) : result value :=
  match v with
  | VUndef | VNull => Throw TypeError
  | VArr l => Ok (nth i l VUndef)
  | VStr s => Ok (match String.get i s with
                  | Some c => VStr (String c "")
                  | None => VUndef
                  end)
  | VObj ps => Ok (lookup_prop (pretty i) ps)
  | _ => Ok VUndef
  end.

(** The receiver of [.filter(...)] and [.map(...)]: these are array
    methods, on anything else the call throws. *)
Definition asArray (v : value) : result (list value) :=
  match v with
  | VArr l => Ok l
  | _ => Throw TypeError
  end.

(** [ToString], as a template literal applies it. *)
Fixpoint toString (v : value) : string :=
  match v with
  | VUndef => "undefined"
  | VNull => "null"
  | VBool true => "true"
  | VBool false => "false"
  | VNum NaN => "NaN"
  | VNum (Int z) => pretty z
  | VStr s => s
  | VArr l =>
      (fix join (l : list value) : string :=
         match l with
         | [] => ""
         | [x] => if nullish x then "" else toString x
         | x :: tl => (if nullish x then "" else toString x) +:+ "," +:+ join tl
         end) l
  | VObj _ => "[object Object]"
  end.

(** Strict equality [v === "lit"] against a string literal. *)
Definition strict_eq_str (v : value) (lit : string) : bool :=
  match v with
  | VStr s => String.eqb s lit
  | _ => false
  end.

(** ** Normalised records (interfaces [Post], [Comment], [User])

    The interfaces declare [string], [number] and [boolean] fields, but the
    mappers copy whatever the payload holds, so a field is a [value]. *)

Record Post := mkPost {
  post_id : value;
  title : value;
  selftext : value;
  author : value;
  subreddit_name : value;
  created_utc : value;
  url : value;
  permalink : value;
  upvotes : value;
  num_comments : value;
  score : value;
  over_18 : value;
  post_url : string;
}.

(** The record [parsePost] reads from: [raw.data || raw]. *)
Definition post_data (raw : value) : result value :=
  rd ← getProp raw "data";
  mret (js_or rd raw).

Definition parsePost (raw : value) : result Post :=
  d ← post_data raw;
  d_id ← getProp d "id";
  d_title ← getProp d "title";
  d_selftext ← getProp d "selftext";
  d_author ← getProp d "author";
  d_subreddit ← getProp d "subreddit";
  d_created ← getProp d "created_utc";
  d_url ← getProp d "url";
  d_permalink ← getProp d "permalink";
  d_ups ← getProp d "ups";
  d_num_comments ← getProp d "num_comments";
  d_score ← getProp d "score";
  d_over_18 ← getProp d "over_18";
  d_permalink' ← getProp d "permalink";
  mret {|
    post_id := d_id;
    title := js_or d_title (VStr "");
    selftext := js_or d_selftext (VStr "");
    author := js_or d_author (VStr "[deleted]");
    subreddit_name := d_subreddit;
    created_utc := d_created;
    url := js_or d_url (VStr "");
    permalink := d_permalink;
    upvotes := js_or d_ups (VNum (Int 0));
    num_comments := js_or d_num_comments (VNum (Int 0));
    score := js_or d_score (VNum (Int 0));
    over_18 := js_or d_over_18 (VBool false);
    post_url := "https://reddit.com" +:+ toString d_permalink';
  |}.

(** ** Comments *)

Unset Elimination Schemes.
Inductive Comment := mkComment {
  comment_id : value;
  body : value;
  comment_author : value;
  comment_created_utc : value;
  comment_upvotes : value;
  comment_score : value;
  depth : nat;
  replies : option (list Comment);
}.
Set Elimination Schemes.

Definition with_replies (c : Comment) (rs : list Comment) : Comment :=
  {| comment_id := comment_id c;
     body := body c;
     comment_author := comment_author c;
     comment_created_utc := comment_created_utc c;
     comment_upvotes := comment_upvotes c;
     comment_score := comment_score c;
     depth := depth c;
     replies := Some rs |}.

Fixpoint mapR {A B} (f : A -> result B) (l : list A) : result (list B) :=
  match l with
  | [] => Ok []
  | x :: tl => y ← f x; ys ← mapR f tl; mret (y :: ys)
  end.

Fixpoint filterR {A} (p : A -> result bool) (l : list A) : result (list A) :=
  match l with
  | [] => Ok []
  | x :: tl => b ← p x; ys ← filterR p tl; mret (if (b : bool) then x :: ys else ys)
  end.

(** The callback [(c) => c.kind === "t1"]: only comments, not "more". *)
Definition is_t1 (c : value) : result bool :=
  k ← getProp c "kind";
  mret (strict_eq_str k "t1").

(** A test that ran and answered [true]. *)
Definition holds (r : result bool) : bool :=
  match r with Ok true => true | _ => false end.

(** The first statement of [parseComment]: the record without [replies]. *)
Definition commentBase (raw : value) (depth : nat) : result Comment :=
  d ← getProp raw "data";
  d_id ← getProp d "id";
  d_body ← getProp d "body";
  d_author ← getProp d "author";
  d_created ← getProp d "created_utc";
  d_ups ← getProp d "ups";
  d_score ← getProp d "score";
  mret {|
    comment_id := d_id;
    body := js_or d_body (VStr "");
    comment_author := js_or d_author (VStr "[deleted]");
    comment_created_utc := d_created;
    comment_upvotes := js_or d_ups (VNum (Int 0));
    comment_score := js_or d_score (VNum (Int 0));
    depth := depth;
    replies := None;
  |}.

(** The guard [d.replies && d.replies.data && d.replies.data.children]. *)
Definition replies_guard (d : value) : result value :=
  r ← getProp d "replies";
  if truthy r then
    rd ← getProp r "data";
    if truthy rd then getProp rd "children" else mret rd
  else mret r.

(** The nodes [parseComment] recurses on: [None] when the guard fails,
    otherwise [d.replies.data.children.filter(c => c.kind === "t1")]. *)
Definition reply_nodes (raw : value) : result (option (list value)) :=
  d ← getProp raw "data";
  g ← replies_guard d;
  if truthy g then
    r ← getProp d "replies";
    rd ← getProp r "data";
    children ← getProp rd "children";
    arr ← asArray children;
    kept ← filterR is_t1 arr;
    mret (Some kept)
  else mret None.

Fixpoint height (v : value) : nat :=
  match v with
  | VArr l =>
      S ((fix go (l : list value) : nat :=
            match l with [] => 0 | x :: tl => Nat.max (height x) (go tl) end) l)
  | VObj ps =>
      S ((fix go (ps : list (string * value)) : nat :=
            match ps with [] => 0 | p :: tl => Nat.max (height p.2) (go tl) end) ps)
  | _ => 0
  end.

(** [parseComment] recurses on nodes nested inside [raw]; the recursion is
    written on a bound that [parseComment] sets above the nesting height of
    [raw], so the bound never runs out. *)
Fixpoint parseComment_rec (bound : nat) (raw : value) (depth : nat)
  : result Comment :=
  match bound with
  | 0 => Throw (Error "Maximum call stack size exceeded")
  | S bound' =>
      comment ← commentBase raw depth;
      nodes ← reply_nodes raw;
      match nodes with
      | Some kept =>
          rs ← mapR (fun c => parseComment_rec bound' c (depth + 1)) kept;
          mret (with_replies comment rs)
      | None => mret comment
      end
  end.

Definition parseComment (raw : value) (depth : nat) : result Comment :=
  parseComment_rec (S (height raw)) raw depth.

(** The depths found in a comment tree, parents before children. *)
Fixpoint all_depths (c : Comment) : list nat :=
  match c with
  | mkComment _ _ _ _ _ _ n rs =>
      n :: match rs with
           | Some l => flat_map all_depths l
           | None => []
           end
  end.

(** A comment tree rooted at depth [n]: the root has depth [n] and each
    child is a tree rooted at depth [n + 1]. *)
#[warnings="-register-all"]
Inductive nested_from : nat -> Comment -> Prop :=
| nested_leaf n c :
    depth c = n -> replies c = None -> nested_from n c
| nested_node n c rs :
    depth c = n -> replies c = Some rs ->
    Forall (nested_from (S n)) rs -> nested_from n c.

(** ** The pure part of [thread]: unwrapping the two listings *)

Record ThreadResult := mkThread {
  thread_post : Post;
  thread_comments : list Comment;
}.

Definition threadResult (data : value) : result ThreadResult :=
  postListing ← getIndex data 0;
  commentListing ← getIndex data 1;
  pl_data ← getProp postListing "data";
  pl_children ← getProp pl_data "children";
  first ← getIndex pl_children 0;
  post ← parsePost first;
  cl_data ← getProp commentListing "data";
  cl_children ← getPropOpt cl_data "children";
  arr ← asArray (js_or cl_children (VArr []));
  kept ← filterR is_t1 arr;
  comments ← mapR (fun c => parseComment c 0) kept;
  mret {| thread_post := post; thread_comments := comments |}.

(** ** Numbers *)

Definition num_add (a b : number) : number :=
  match a, b with Int x, Int y => Int (x + y) | _, _ => NaN end.
Definition num_sub (a b : number) : number :=
  match a, b with Int x, Int y => Int (x - y) | _, _ => NaN end.
Definition num_mul (a b : number) : number :=
  match a, b with Int x, Int y => Int (x * y) | _, _ => NaN end.
(** [a < b] on numbers: false as soon as one side is [NaN]. *)
Definition num_lt (a b : number) : bool :=
  match a, b with Int x, Int y => (x <? y)%Z | _, _ => false end.

Definition truthy_num (n : number) : bool := truthy (VNum n).

(** An optional argument [x?: number] tested as [if (x)] or [x || dflt]. *)
Definition truthy_opt (o : option number) : bool :=
  match o with Some n => truthy_num n | None => false end.
Definition opt_or (o : option number) (dflt : Z) : number :=
  match o with
  | Some n => if truthy_num n then n else Int dflt
  | None => Int dflt
  end.
(** An optional [string] argument or environment variable under [if (x)]. *)
Definition truthy_str (o : option string) : bool :=
  match o with Some s => negb (String.eqb s "") | None => false end.
Definition str_or (o : option string) (dflt : string) : string :=
  match o with
  | Some s => if String.eqb s "" then dflt else s
  | None => dflt
  end.

Definition num_toString (n : number) : string := toString (VNum n).

(** *** [parseInt(s)] with no radix argument

    Leading white space is skipped (the ASCII white space characters), then
    an optional sign, then [0x] selects base 16; the longest run of digits
    is read and what follows is ignored; no digit at all gives [NaN]. *)

Definition is_space (c : ascii) : bool :=
  let n := nat_of_ascii c in
  (n =? 32)%nat || ((9 <=? n)%nat && (n <=? 13)%nat).

Definition digit_of (radix : Z) (c : ascii) : option Z :=
  let n := Z.of_nat (nat_of_ascii c) in
  let d := if (48 <=? n)%Z && (n <=? 57)%Z then Some (n - 48)%Z
           else if (97 <=? n)%Z && (n <=? 122)%Z then Some (n - 87)%Z
           else if (65 <=? n)%Z && (n <=? 90)%Z then Some (n - 55)%Z
           else None in
  match d with
  | Some v => if (v <? radix)%Z then Some v else None
  | None => None
  end.

Fixpoint skip_spaces (s : string) : string :=
  match s with
  | String c s' => if is_space c then skip_spaces s' else s
  | EmptyString => s
  end.

(** Reads digits onto [acc]; [seen] tells whether a digit was read. *)
Fixpoint read_digits (radix : Z) (s : string) (acc : Z) (seen : bool)
  : option Z :=
  match s with
  | String c s' =>
      match digit_of radix c with
      | Some d => read_digits radix s' (acc * radix + d)%Z true
      | None => if seen then Some acc else None
      end
  | EmptyString => if seen then Some acc else None
  end.

Definition parseInt (s : string) : number :=
  let s := skip_spaces s in
  let '(sign, s) :=
    match s with
    | String "-"%char s' => ((-1)%Z, s')
    | String "+"%char s' => (1%Z, s')
    | _ => (1%Z, s)
    end in
  let '(radix, s) :=
    match s with
    | String "0"%char (String "x"%char s') => (16%Z, s')
    | String "0"%char (String "X"%char s') => (16%Z, s')
    | _ => (10%Z, s)
    end in
  match read_digits radix s 0 false with
  | Some n => Int (sign * n)
  | None => NaN
  end.

(** ** Pure helpers exported by the wrapper *)

Record EngagementOpts := mkEngagement {
  minUpvotes : option number;
  minComments : option number;
}.

(** [URLSearchParams.set]: replaces the value of an existing key, appends
    a new one. *)
Fixpoint params_set (k v : string) (ps : list (string * string))
  : list (string * string) :=
  match ps with
  | [] => [(k, v)]
  | (k', v') :: tl =>
      if String.eqb k k'
      then (k, v) :: List.filter (fun p => negb (String.eqb k p.1)) tl
      else (k', v') :: params_set k v tl
  end.

Definition RATE_DELAY_MS : Z := 600.

(** ** The process: token cache, clock, network and result cache *)

Record response := mkResponse {
  resp_ok : bool;
  resp_status : Z;
  resp_text : string;
  resp_json : option value;
  resp_latency : N;
}.

Inductive event :=
| AuthRequest (issued : Z) (clientId clientSecret username password : string)
| ApiRequest (issued : Z) (endpoint : string) (authorization : string) (ok : bool)
| Slept (from : Z) (ms : Z).

Record environment := mkEnv {
  REDDIT_CLIENT_ID : option string;
  REDDIT_CLIENT_SECRET : option string;
  REDDIT_USERNAME : option string;
  REDDIT_PASSWORD : option string;
}.

(** Modelled from the spec: an entry of the store of [lib/cache.ts], which
    is not among the sources. The spec lists a key, a payload, the time of
    the write and a TTL; the key is the key of the map, and the TTL is the
    one supplied at lookup time, so an entry holds the other two. The
    payload of the entries [cmdSearch] writes is a list of posts. *)
Record CacheEntry := mkEntry {
  payload : list Post;
  storedAt : Z;
}.

(** [accessToken] and [tokenExpiry] are the two module-level variables of
    the wrapper; [now] is what [Date.now()] reads; [net n] is the answer to
    the [n]-th HTTP request of the run and [sent] counts the requests made;
    [log] holds what happened, newest first. *)
Record world := mkWorld {
  env : environment;
  now : Z;
  accessToken : value;
  tokenExpiry : number;
  net : nat -> response;
  sent : nat;
  log : list event;
  cache : gmap string CacheEntry;
}.

Definition M (A : Type) : Type := world -> result A * world.

#[global] Instance M_ret : MRet M := fun A a w => (Ok a, w).
#[global] Instance M_bind : MBind M :=
  fun A B f m w =>
    match m w with
    | (Ok a, w') => f a w'
    | (Throw e, w') => (Throw e, w')
    end.

Definition throw {A} (e : exn) : M A := fun w => (Throw e, w).
Definition lift {A} (r : result A) : M A := fun w => (r, w).
Definition gets {A} (f : world -> A) : M A := fun w => (Ok (f w), w).
Definition modify (f : world -> world) : M unit := fun w => (Ok tt, f w).
Definition try_catch {A} (m : M A) (handler : exn -> M A) : M A :=
  fun w =>
    match m w with
    | (Ok a, w') => (Ok a, w')
    | (Throw e, w') => handler e w'
    end.

Definition set_token (t : value) (w : world) : world :=
  mkWorld (env w) (now w) t (tokenExpiry w) (net w) (sent w) (log w) (cache w).
Definition set_expiry (e : number) (w : world) : world :=
  mkWorld (env w) (now w) (accessToken w) e (net w) (sent w) (log w) (cache w).
Definition set_cache (c : gmap string CacheEntry) (w : world) : world :=
  mkWorld (env w) (now w) (accessToken w) (tokenExpiry w) (net w) (sent w)
    (log w) c.
Definition record (e : event) (w : world) : world :=
  mkWorld (env w) (now w) (accessToken w) (tokenExpiry w) (net w) (sent w)
    (e :: log w) (cache w).
Definition elapse (ms : Z) (w : world) : world :=
  mkWorld (env w) (now w + ms) (accessToken w) (tokenExpiry w) (net w)
    (sent w) (log w) (cache w).
Definition count_request (w : world) : world :=
  mkWorld (env w) (now w) (accessToken w) (tokenExpiry w) (net w)
    (S (sent w)) (log w) (cache w).

(** [await fetch(...)]: the next answer of the network arrives after its
    latency. *)
Definition fetch : M response :=
  r ← gets (fun w => net w (sent w));
  modify count_request;;
  modify (elapse (Z.of_N (resp_latency r)));;
  mret r.

(** [await sleep(ms)] *)
Definition sleep (ms : Z) : M unit :=
  t ← gets now;
  modify (elapse ms);;
  modify (record (Slept t ms)).

(** [await response.json()] *)
Definition response_json (r : response) : M value :=
  match resp_json r with
  | Some v => mret v
  | None => throw SyntaxError
  end.

Record Credentials := mkCredentials {
  clientId : string;
  clientSecret : string;
  username : string;
  password : string;
}.

Definition getCredentials : M Credentials :=
  e ← gets env;
  match REDDIT_CLIENT_ID e, REDDIT_CLIENT_SECRET e,
        REDDIT_USERNAME e, REDDIT_PASSWORD e with
  | Some i, Some s, Some u, Some p =>
      if negb (String.eqb i "") && negb (String.eqb s "")
         && negb (String.eqb u "") && negb (String.eqb p "")
      then mret (mkCredentials i s u p)
      else throw (Error "Missing Reddit credentials. Set REDDIT_CLIENT_ID, REDDIT_CLIENT_SECRET, REDDIT_USERNAME, REDDIT_PASSWORD")
  | _, _, _, _ =>
      throw (Error "Missing Reddit credentials. Set REDDIT_CLIENT_ID, REDDIT_CLIENT_SECRET, REDDIT_USERNAME, REDDIT_PASSWORD")
  end.

(** ** The result cache *)

(** Modelled from the spec: [lib/cache.ts] is imported by the CLI but is
    not among the sources. The spec gives its contract as [get(key, ttl)],
    [set(key, value)] and [clear()]: expiry is lazy, [get] compares
    [now - storedAt] with the TTL supplied at lookup time, an entry is
    invalid once [now - storedAt > TTL], an expired or absent entry reads as
    absent, and [clear] removes every entry and reports how many there
    were. (The CLI passes an empty string as a second argument of [get] and
    [set]; the spec's contract has no such argument.) *)
Definition cache_lookup (store : gmap string CacheEntry) (key : string)
    (ttl : Z) (t : Z) : option (list Post) :=
  match store !! key with
  | Some e => if (ttl <? t - storedAt e)%Z then None else Some (payload e)
  | None => None
  end.

(** Modelled from the spec: [set(key, value)] of [lib/cache.ts], which
    stamps the entry with the time of the write. *)
Definition cache_store (store : gmap string CacheEntry) (key : string)
    (v : list Post) (t : Z) : gmap string CacheEntry :=
  <[key := mkEntry v t]> store.

(** Modelled from the spec: [clear()] of [lib/cache.ts]. *)
Definition cache_clear (store : gmap string CacheEntry)
  : nat * gmap string CacheEntry :=
  (size store, ∅).

(** Modelled from the spec: [cache.get(key, "", ttl)] as the CLI calls it,
    a lookup at the current time. *)
Definition cache_get (key : string) (ttl : Z) : M (option (list Post)) :=
  t ← gets now;
  store ← gets cache;
  mret (cache_lookup store key ttl t).

(** Modelled from the spec: [cache.set(key, "", value)] as the CLI calls
    it, a write stamped with the current time. *)
Definition cache_set (key : string) (v : list Post) : M unit :=
  t ← gets now;
  modify (fun w => set_cache (cache_store (cache w) key v t) w).

(** ** Command-line arguments ([args = process.argv.slice(2)]) *)

Definition getFlag (args : list string) (name : string) : bool :=
  existsb (String.eqb ("--" +:+ name)) args.

Fixpoint find_after (flag : string) (args : list string) : option string :=
  match args with
  | [] => None
  | a :: rest =>
      if String.eqb a flag
      then match rest with [] => None | v :: _ => Some v end
      else find_after flag rest
  end.

Definition getOpt (args : list string) (name : string) : option string :=
  find_after ("--" +:+ name) args.

(** The options of [thread]: [depth?], [limit?] and [sort?]. *)
Record ThreadOpts := mkThreadOpts {
  to_depth : option number;
  to_limit : option number;
  to_sort : option string;
}.

(** ** Sample payloads and worlds

    Small inputs on which the definitions are run further down. *)

(** Stand-ins for the two built-ins of section [Platform], good for runs
    that convert no string to a number and encode only unreserved
    characters. *)
Definition no_numerals : string -> number := fun _ => NaN.
Definition no_escapes : string -> string := fun s => s.

(** A post with neither [ups], [num_comments], [over_18] nor [author]. *)
Definition bare_post_props : list (string * value) :=
  [("id", VStr "abc"); ("title", VStr "Hello");
   ("subreddit", VStr "test");
   ("permalink", VStr "/r/test/comments/abc/hello/");
   ("url", VStr "https://example.org/elsewhere")].
Definition bare_post_data : value := VObj bare_post_props.
Definition bare_post_wrapper : list (string * value) :=
  [("kind", VStr "t3"); ("data", bare_post_data)].
Definition bare_post : value := VObj bare_post_wrapper.

(** A data object that itself carries a [data] property. *)
Definition nested_data_post : value :=
  VObj [("id", VStr "outer"); ("permalink", VStr "/outer");
        ("data", VObj [("id", VStr "inner"); ("permalink", VStr "/inner")])].

Definition listing (children : list value) : value :=
  VObj [("kind", VStr "Listing");
        ("data", VObj [("children", VArr children); ("after", VNull)])].

Definition more_node : value :=
  VObj [("kind", VStr "more");
        ("data", VObj [("id", VStr "m1"); ("count", VNum (Int 7))])].

(** A comment whose replies listing holds a placeholder only. *)
Definition only_more_data : value :=
  VObj [("id", VStr "c2"); ("body", VStr "second");
        ("author", VStr "bob"); ("ups", VNum (Int 3));
        ("replies", listing [more_node])].
Definition only_more_node : value :=
  VObj [("kind", VStr "t1"); ("data", only_more_data)].

(** A comment with no replies: the API sends the empty string. *)
Definition leaf_data : value :=
  VObj [("id", VStr "c3"); ("body", VStr "third");
        ("author", VStr "carol"); ("replies", VStr "")].
Definition leaf_node : value :=
  VObj [("kind", VStr "t1"); ("data", leaf_data)].

(** Three levels: a comment, a reply to it, and a placeholder below. *)
Definition nested3_data : value :=
  VObj [("id", VStr "c1"); ("body", VStr "first");
        ("author", VStr "alice"); ("ups", VNum (Int 10));
        ("replies", listing [only_more_node])].
Definition nested3 : value :=
  VObj [("kind", VStr "t1"); ("data", nested3_data)].

(** The answer of the thread endpoint: one post, then two comments and a
    placeholder. *)
Definition thread_body : value :=
  VArr [listing [bare_post]; listing [nested3; leaf_node; more_node]].

Definition token_body : value :=
  VObj [("access_token", VStr "abc123"); ("token_type", VStr "bearer");
        ("expires_in", VNum (Int 3600)); ("scope", VStr "*")].

Definition sample_credentials : Credentials :=
  mkCredentials "id" "secret" "me" "hunter2".

Definition sample_env : environment :=
  mkEnv (Some "id") (Some "secret") (Some "me") (Some "hunter2").

(** A process that has no token yet; the token endpoint answers first. *)
Definition fresh_world : world :=
  mkWorld sample_env 1700000000000 VNull (Int 0)
    (fun n => match n with
              | 0 => mkResponse true 200 "" (Some token_body) 200
              | _ => mkResponse true 200 "" (Some thread_body) 120
              end)
    0 [] ∅.

(** A process holding a token good for an hour; every request is
    answered with the thread body. *)
Definition serving_world : world :=
  mkWorld sample_env 1700000000000 (VStr "abc123") (Int 1700003600000)
    (fun _ => mkResponse true 200 "" (Some thread_body) 120)
    0 [] ∅.

(** The same process when every request is answered with a listing of
    one post, which has no [ups]. *)
Definition search_world : world :=
  mkWorld sample_env 1700000000000 (VStr "abc123") (Int 1700003600000)
    (fun _ => mkResponse true 200 "" (Some (listing [bare_post])) 120)
    0 [] ∅.

Definition zero_args : list string :=
  ["search"; "rust"; "--min-upvotes"; "0"].

(** The same process facing an API that answers 404 after 50 ms. *)
Definition failing_world : world :=
  mkWorld sample_env 1700000000000 (VStr "abc123") (Int 1700003600000)
    (fun _ => mkResponse false 404 "Not Found" None 50)
    0 [] ∅.

Definition default_thread_opts : ThreadOpts :=
  mkThreadOpts (Some (Int 5)) (Some (Int 50)) (Some "confidence").

Definition quiet_post : Post :=
  mkPost (VStr "p0") (VStr "Nobody voted") (VStr "") (VStr "dave")
    (VStr "test") (VNum (Int 1700000000)) (VStr "") (VStr "/r/test/p0")
    (VNum (Int 0)) (VNum (Int 0)) (VNum (Int 0)) (VBool false)
    "https://reddit.com/r/test/p0".

Definition loud_post : Post :=
  mkPost (VStr "p1") (VStr "Everybody voted") (VStr "") (VStr "erin")
    (VStr "test") (VNum (Int 1700000001)) (VStr "") (VStr "/r/test/p1")
    (VNum (Int 500)) (VNum (Int 40)) (VNum (Int 480)) (VBool false)
    "https://reddit.com/r/test/p1".

(** A post with the given id, upvotes and comment count. *)
Definition post_with (id : string) (ups comments : Z) : Post :=
  mkPost (VStr id) (VStr "A title") (VStr "") (VStr "frank") (VStr "test")
    (VNum (Int 1700000000)) (VStr "") (VStr ("/r/test/" +:+ id))
    (VNum (Int ups)) (VNum (Int comments)) (VNum (Int ups)) (VBool false)
    ("https://reddit.com/r/test/" +:+ id).

(** Posts with 5, 50 and 1 comments. *)
Definition three_posts : list Post :=
  [post_with "a" 10 5; post_with "b" 10 50; post_with "c" 7 1].

(** The same with the first post met again, under other counts. *)
Definition reposted : list Post :=
  [post_with "a" 10 5; post_with "b" 10 50; post_with "a" 99 9;
   post_with "c" 7 1].

Definition comments_of (p : Post) : Z :=
  match num_comments p with VNum (Int z) => z | _ => 0%Z end.
Definition upvotes_of (p : Post) : Z :=
  match upvotes p with VNum (Int z) => z | _ => 0%Z end.

(** A process with no token and no credentials. *)
Definition no_credentials_world : world :=
  mkWorld (mkEnv (Some "id") None (Some "me") (Some ""))
    1700000000000 VNull (Int 0)
    (fun _ => mkResponse true 200 "" (Some token_body) 200)
    0 [] ∅.

(** A process with no token, whose credentials the token endpoint
    rejects. *)
Definition rejected_world : world :=
  mkWorld sample_env 1700000000000 VNull (Int 0)
    (fun _ => mkResponse false 401 "Unauthorized" None 80)
    0 [] ∅.

(** A process with no token; the token endpoint answers without
    [expires_in]. *)
Definition no_expiry_world : world :=
  mkWorld sample_env 1700000000000 VNull (Int 0)
    (fun _ => mkResponse true 200 ""
                (Some (VObj [("access_token", VStr "abc123")])) 200)
    0 [] ∅.

Definition about_body : value :=
  VObj [("kind", VStr "t2");
        ("data", VObj [("name", VStr "alice");
                       ("link_karma", VNum (Int 10))])].

(** A process holding a fresh token; the API answers the user's profile
    first and a listing of one post afterwards. *)
Definition profile_world : world :=
  mkWorld sample_env 1700000000000 (VStr "abc123") (Int 1700003600000)
    (fun n => match n with
              | 0 => mkResponse true 200 "" (Some about_body) 90
              | _ => mkResponse true 200 "" (Some (listing [bare_post])) 120
              end)
    0 [] ∅.

(** A process whose cache holds the posts of an earlier search, written
    ten minutes ago. *)
Definition cached_world : world :=
  mkWorld sample_env 1700000000000 VNull (Int 0)
    (fun _ => mkResponse false 500 "" None 10)
    0 []
    (cache_store ∅ "search:rust:all:relevance:week:15"
       [quiet_post; loud_post] 1699999400000).

Definition fixed_stamp : Z -> string := fun _ => "2023-11-14T22:13:20.000Z".

(** ** What the log shows *)

Fixpoint auth_calls (l : list event) : nat :=
  match l with
  | [] => 0
  | AuthRequest _ _ _ _ _ :: rest => S (auth_calls rest)
  | _ :: rest => auth_calls rest
  end.

(** Issue times of the API requests, oldest first. *)
Fixpoint api_times (l : list event) : list Z :=
  match l with
  | [] => []
  | ApiRequest t _ _ _ :: rest => api_times rest ++ [t]
  | _ :: rest => api_times rest
  end.

(** Adjacent times are at least [gap] apart. *)
Fixpoint spaced (gap : Z) (ts : list Z) : bool :=
  match ts with
  | t1 :: ((t2 :: _) as rest) => (t1 + gap <=? t2)%Z && spaced gap rest
  | _ => true
  end.

(** [paced next l]: reading the log [l] (newest first) backwards from the
    time [next], every API request that got a success status was issued at
    least [RATE_DELAY_MS] before what follows it, and every other request
    not after what follows it. *)
Fixpoint paced (next : Z) (l : list event) : Prop :=
  match l with
  | [] => True
  | ApiRequest t _ _ ok :: rest =>
      (if ok then t + RATE_DELAY_MS <= next else t <= next)%Z /\ paced t rest
  | _ :: rest => paced next rest
  end.

(** A computation keeps the pace when it leaves a paced log paced,
    whatever its outcome. *)
Definition keeps_pace {A} (m : M A) : Prop :=
  forall w r w', m w = (r, w') ->
                 paced (now w) (log w) -> paced (now w') (log w').

(** The test at the head of [getToken], read off a world. *)
Definition token_fresh (w : world) : bool :=
  truthy (accessToken w)
  && num_lt (Int (now w)) (num_sub (tokenExpiry w) (Int (5 * 60 * 1000))).

Section Platform.

(** Two built-ins the program calls and whose tables are not its own:
    ECMAScript's [StringToNumber] (used when a payload holds a string where
    a number is expected) and the percent-encoding that
    [URLSearchParams.toString] applies to keys and values. *)
Variable StringToNumber : string -> number.
Variable formEncode : string -> string.

(** [ToNumber], as [*] and [<] apply it to an operand. *)
Definition toNumber (v : value) : number :=
  match v with
  | VUndef => NaN
  | VNull => Int 0
  | VBool b => Int (if b then 1 else 0)
  | VNum n => n
  | VStr s => StringToNumber s
  | VArr _ | VObj _ => StringToNumber (toString v)
  end.

Fixpoint params_toString (ps : list (string * string)) : string :=
  match ps with
  | [] => ""
  | [(k, v)] => formEncode k +:+ "=" +:+ formEncode v
  | (k, v) :: tl =>
      formEncode k +:+ "=" +:+ formEncode v +:+ "&" +:+ params_toString tl
  end.

(** *** [getToken] *)

Definition getToken : M value :=
  tok ← gets accessToken;
  expiry ← gets tokenExpiry;
  t ← gets now;
  if truthy tok && num_lt (Int t) (num_sub expiry (Int (5 * 60 * 1000)))
  then mret tok
  else
    c ← getCredentials;
    issued ← gets now;
    response ← fetch;
    modify (record (AuthRequest issued (clientId c) (clientSecret c)
                      (username c) (password c)));;
    if negb (resp_ok response)
    then throw (Error ("OAuth2 authentication failed: " +:+ resp_text response))
    else
      data ← response_json response;
      access_token ← lift (getProp data "access_token");
      modify (set_token access_token);;
      t' ← gets now;
      expires_in ← lift (getProp data "expires_in");
      modify (set_expiry
                (num_add (Int t') (num_mul (toNumber expires_in) (Int 1000))));;
      gets accessToken.

(** *** [apiGet] *)

Definition apiGet (endpoint : string) : M value :=
  token ← getToken;
  issued ← gets now;
  response ← fetch;
  modify (record (ApiRequest issued endpoint ("Bearer " +:+ toString token)
                    (resp_ok response)));;
  if negb (resp_ok response)
  then throw (Error ("Reddit API error: " +:+ pretty (resp_status response)
                       +:+ " " +:+ resp_text response))
  else
    sleep RATE_DELAY_MS;;
    response_json response.

(** *** The four operations *)

(** [(data.data?.children || []).map((c) => parsePost(c))] *)
Definition listing_posts (data : value) : result (list Post) :=
  dd ← getProp data "data";
  children ← getPropOpt dd "children";
  arr ← asArray (js_or children (VArr []));
  mapR parsePost arr.

(** [data.data?.after] *)
Definition listing_after (data : value) : result value :=
  dd ← getProp data "data";
  getPropOpt dd "after".

Record SearchOpts := mkSearchOpts {
  so_subreddit : option string;
  so_sort : option string;
  so_time : option string;
  so_limit : option number;
  so_after : option string;
}.

Definition search (query : string) (opts : SearchOpts)
  : M (list Post * value) :=
  let params := params_set "q" query [] in
  let params := params_set "sort" (str_or (so_sort opts) "relevance") params in
  let params := if truthy_str (so_time opts)
                then params_set "t" (str_or (so_time opts) "") params
                else params in
  let params :=
    params_set "limit" (num_toString (opt_or (so_limit opts) 25)) params in
  let params := if truthy_str (so_after opts)
                then params_set "after" (str_or (so_after opts) "") params
                else params in
  let params := params_set "raw_json" "1" params in
  let endpoint :=
    if truthy_str (so_subreddit opts)
    then "/r/" +:+ str_or (so_subreddit opts) "" +:+ "/search?"
           +:+ params_toString params
    else "/search?" +:+ params_toString params in
  data ← apiGet endpoint;
  posts ← lift (listing_posts data);
  after ← lift (listing_after data);
  mret (posts, after).

Record ListingOpts := mkListingOpts {
  lo_time : option string;
  lo_limit : option number;
  lo_after : option string;
}.

Definition subreddit (name : string) (sort : string) (opts : ListingOpts)
  : M (list Post * value) :=
  let params := [] in
  let params := if truthy_str (lo_time opts)
                then params_set "t" (str_or (lo_time opts) "") params
                else params in
  let params :=
    params_set "limit" (num_toString (opt_or (lo_limit opts) 25)) params in
  let params := if truthy_str (lo_after opts)
                then params_set "after" (str_or (lo_after opts) "") params
                else params in
  let params := params_set "raw_json" "1" params in
  let endpoint := "/r/" +:+ name +:+ "/" +:+ sort +:+ "?"
                    +:+ params_toString params in
  data ← apiGet endpoint;
  posts ← lift (listing_posts data);
  after ← lift (listing_after data);
  mret (posts, after).

Definition thread_endpoint (subreddit postId : string) (opts : ThreadOpts)
  : string :=
  let params := [] in
  let params := match to_depth opts with
                | Some d => params_set "depth" (num_toString d) params
                | None => params
                end in
  let params := match to_limit opts with
                | Some l => if truthy_num l
                            then params_set "limit" (num_toString l) params
                            else params
                | None => params
                end in
  let params := if truthy_str (to_sort opts)
                then params_set "sort" (str_or (to_sort opts) "") params
                else params in
  let params := params_set "raw_json" "1" params in
  "/r/" +:+ subreddit +:+ "/comments/" +:+ postId +:+ "?"
    +:+ params_toString params.

Definition thread (subreddit postId : string) (opts : ThreadOpts)
  : M ThreadResult :=
  let endpoint := thread_endpoint subreddit postId opts in
  data ← apiGet endpoint;
  lift (threadResult data).

Record User := mkUser {
  user_name : value;
  link_karma : value;
  comment_karma : value;
  user_created_utc : value;
  total_karma : value;
}.

Definition parseUser (u : value) : result User :=
  u_name ← getProp u "name";
  u_link ← getProp u "link_karma";
  u_comment ← getProp u "comment_karma";
  u_created ← getProp u "created_utc";
  u_total ← getProp u "total_karma";
  mret {|
    user_name := u_name;
    link_karma := js_or u_link (VNum (Int 0));
    comment_karma := js_or u_comment (VNum (Int 0));
    user_created_utc := u_created;
    total_karma := js_or u_total (VNum (Int 0));
  |}.

Definition profile (username : string) (count : option number)
  : M (User * list Post) :=
  userData ← apiGet ("/user/" +:+ username +:+ "/about");
  u ← lift (getProp userData "data");
  user ← lift (parseUser u);
  let params := params_set "limit" (num_toString (opt_or count 10)) [] in
  let params := params_set "raw_json" "1" params in
  postsData ← apiGet ("/user/" +:+ username +:+ "/submitted?"
                        +:+ params_toString params);
  posts ← lift (listing_posts postsData);
  mret (user, posts).

(** *** [filterEngagement] *)

(** [opts.min && v < opts.min] *)
Definition below (min : option number) (v : value) : bool :=
  match min with
  | Some n => truthy_num n && num_lt (toNumber v) n
  | None => false
  end.

Definition filterEngagement (posts : list Post) (opts : EngagementOpts)
  : list Post :=
  List.filter
    (fun p =>
       if below (minUpvotes opts) (upvotes p) then false
       else if below (minComments opts) (num_comments p) then false
       else true)
    posts.

(** ** The commands of the CLI that reach the wrapper *)

(** [cmdSearch] from the reading of the options to the cache check and
    the fetch on a miss: the posts and whether they came from the cache. *)
Definition cmdSearch_load (args : list string) (query : string)
  : M (list Post * bool) :=
  let isQuick := getFlag args "quick" in
  let subreddit := getOpt args "subreddit" in
  let sort := str_or (getOpt args "sort") "relevance" in
  let time := str_or (getOpt args "time") "week" in
  let limit :=
    parseInt (str_or (getOpt args "limit") (if isQuick then "10" else "15")) in
  let ttl := (if isQuick then 60 * 60 * 1000 else 15 * 60 * 1000)%Z in
  let cacheKey :=
    "search:" +:+ query +:+ ":" +:+ str_or subreddit "all" +:+ ":"
      +:+ sort +:+ ":" +:+ time +:+ ":" +:+ num_toString limit in
  cached ← cache_get cacheKey ttl;
  match cached with
  | Some posts => mret (posts, true)
  | None =>
      r ← search query
            (mkSearchOpts subreddit (Some sort) (Some time) (Some limit) None);
      cache_set cacheKey r.1;;
      mret (r.1, false)
  end.

(** [minUpvotesStr ? parseInt(minUpvotesStr) : undefined] *)
Definition cmdSearch_minUpvotes (args : list string) : option number :=
  let minUpvotesStr := getOpt args "min-upvotes" in
  if truthy_str minUpvotesStr
  then Some (parseInt (str_or minUpvotesStr ""))
  else None.

(** [cmdSearch] up to the point where the posts are printed: the posts it
    goes on to print and whether they came from the cache. *)
Definition cmdSearch (args : list string) : M (list Post * bool) :=
  match nth_error args 1 with
  | None => throw (Exit 1)
  | Some query =>
      if String.eqb query "" then throw (Exit 1)
      else
        let minUpvotes := cmdSearch_minUpvotes args in
        '(posts, fromCache) ← cmdSearch_load args query;
        let posts :=
          if truthy_opt minUpvotes
          then filterEngagement posts (mkEngagement minUpvotes None)
          else posts in
        mret (posts, fromCache)
  end.

(** The [check] action of [cmdWatchlist]: one [profile] call per user, a
    failure is reported and the loop goes on. *)
Fixpoint watchlistCheck (users : list string) : M unit :=
  match users with
  | [] => mret tt
  | u :: rest =>
      try_catch (profile u (Some (Int 3));; mret tt) (fun _ => mret tt);;
      watchlistCheck rest
  end.

(** ** The rest of the wrapper: [sortBy] and [dedupe] *)

(** The field a metric name selects; any name other than ["upvotes"] and
    ["comments"] selects the score. *)
Definition metric_of (metric : string) (p : Post) : value :=
  if String.eqb metric "upvotes" then upvotes p
  else if String.eqb metric "comments" then num_comments p
  else score p.

(** The comparator of [sortBy]: [b.m - a.m]. *)
Definition sort_compare (metric : string) (a b : Post) : number :=
  num_sub (toNumber (metric_of metric b)) (toNumber (metric_of metric a)).

(** [v > 0] as [sort] reads the comparator's answer: [NaN] counts as 0. *)
Definition num_pos (n : number) : bool :=
  match n with Int z => (0 <? z)%Z | NaN => false end.

(** [Array.prototype.sort(compare)] on a copy. The language makes the sort
    stable, and for a comparator that orders the elements consistently it
    fixes the result: the one sorted arrangement that leaves elements the
    comparator does not tell apart in their order. That arrangement is
    built here by insertion; [compare a b > 0] sends [a] behind [b]. *)
Fixpoint sort_insert {A} (compare : A -> A -> number) (x : A) (l : list A)
  : list A :=
  match l with
  | [] => [x]
  | y :: tl =>
      if num_pos (compare x y) then y :: sort_insert compare x tl
      else x :: y :: tl
  end.

Definition array_sort {A} (compare : A -> A -> number) (l : list A)
  : list A :=
  foldr (sort_insert compare) [] l.

Definition sortBy (posts : list Post) (metric : string) : list Post :=
  array_sort (sort_compare metric) posts.

(** Membership in a [Set]: SameValueZero. Two primitives are the same
    when they are equal ([NaN] included). An array or an object is the
    same as itself only, by reference, which a [value] does not carry: the
    properties of [dedupe] are stated for ids that are primitives. *)
Definition primitive (v : value) : bool :=
  match v with VArr _ | VObj _ => false | _ => true end.

Definition same_value_zero (a b : value) : bool :=
  match a, b with
  | VUndef, VUndef => true
  | VNull, VNull => true
  | VBool x, VBool y => Bool.eqb x y
  | VNum NaN, VNum NaN => true
  | VNum (Int x), VNum (Int y) => (x =? y)%Z
  | VStr x, VStr y => String.eqb x y
  | _, _ => false
  end.

(** [dedupe] with the set [seen] as it stands when the filter reaches
    [posts]. *)
Fixpoint dedupe_from (seen : list value) (posts : list Post) : list Post :=
  match posts with
  | [] => []
  | p :: rest =>
      if existsb (same_value_zero (post_id p)) seen
      then dedupe_from seen rest
      else p :: dedupe_from (post_id p :: seen) rest
  end.

Definition dedupe (posts : list Post) : list Post := dedupe_from [] posts.

(** ** [timeAgo] of the formatters *)

(** [Math.floor(a / b)] for a positive integer [b]: on integers below 2^53
    the quotient of doubles never rounds up to the next integer, so this
    is the floor of the exact quotient. *)
Definition num_floor_div (a : number) (b : Z) : number :=
  match a with Int x => Int (x / b) | NaN => NaN end.

Definition timeAgo (unixTime : value) : M string :=
  t ← gets now;
  let diff := num_sub (Int t) (num_mul (toNumber unixTime) (Int 1000)) in
  let mins := num_floor_div diff 60000 in
  if num_lt mins (Int 60) then mret (num_toString mins +:+ "m")
  else
    let hours := num_floor_div mins 60 in
    if num_lt hours (Int 24) then mret (num_toString hours +:+ "h")
    else
      let days := num_floor_div hours 24 in
      mret (num_toString days +:+ "d").

(** ** The other commands of the CLI *)

(** [cmdThread] up to the point where the thread is printed. *)
Definition cmdThread (args : list string) : M ThreadResult :=
  let postId := nth_error args 1 in
  if negb (truthy_str postId) then throw (Exit 1)
  else
    let subreddit := getOpt args "subreddit" in
    if negb (truthy_str subreddit) then throw (Exit 1)
    else
      let depth := parseInt (str_or (getOpt args "depth") "5") in
      let limit := parseInt (str_or (getOpt args "limit") "50") in
      let sort := str_or (getOpt args "sort") "confidence" in
      thread (str_or subreddit "") (str_or postId "")
        (mkThreadOpts (Some depth) (Some limit) (Some sort)).

(** An entry of the watchlist file. *)
Record WatchUser := mkWatchUser {
  wu_username : string;
  wu_note : option string;
  wu_addedAt : string;
}.

(** [new Date().toISOString()] of a clock reading: a built-in. *)
Variable toISOString : Z -> string.

(** The watchlist file holds the list of users; [None] stands for a file
    that does not exist, which [loadWatchlist] reads as the empty list.
    The file is one this program wrote, and reading and writing it are
    taken to succeed. *)
Definition loadWatchlist (file : option (list WatchUser)) : list WatchUser :=
  match file with Some users => users | None => [] end.

(** [wl.users.find((u) => u.username === username)], as a test. *)
Definition on_watchlist (username : string) (users : list WatchUser) : bool :=
  existsb (fun u => String.eqb (wu_username u) username) users.

(** [cmdWatchlist]: the file it leaves. The actions [list] and [check]
    and an [add] of a user already listed do not write the file. *)
Definition cmdWatchlist (args : list string)
    (file : option (list WatchUser)) : M (option (list WatchUser)) :=
  let action := nth_error args 1 in
  if negb (truthy_str action) || String.eqb (str_or action "") "list"
  then mret file
  else if String.eqb (str_or action "") "add" then
    let username := nth_error args 2 in
    let note := String.concat " " (drop 3 args) in
    if negb (truthy_str username) then throw (Exit 1)
    else
      let wl := loadWatchlist file in
      if on_watchlist (str_or username "") wl then mret file
      else
        t ← gets now;
        mret (Some (wl ++ [mkWatchUser (str_or username "") (Some note)
                             (toISOString t)])%list)
  else if String.eqb (str_or action "") "remove" then
    let username := nth_error args 2 in
    if negb (truthy_str username) then throw (Exit 1)
    else
      let wl := loadWatchlist file in
      mret (Some (List.filter
                    (fun u => negb (String.eqb (wu_username u)
                                      (str_or username "")))
                    wl))
  else if String.eqb (str_or action "") "check" then
    watchlistCheck (map wu_username (loadWatchlist file));;
    mret file
  else throw (Exit 1).

(** ** Shapes the properties speak of *)

(** Every element of [l] has a key no smaller than those behind it. *)
Fixpoint descending {A} (key : A -> Z) (l : list A) : Prop :=
  match l with
  | [] => True
  | x :: tl => Forall (fun y => (key y <= key x)%Z) tl /\ descending key tl
  end.

(** A comment node as the API sends it: its [data] is there, and its
    replies are either nothing [parseComment] would read (the guard fails)
    or a listing whose children are all there, those of kind ["t1"] being
    comment nodes in turn. *)
#[warnings="-register-all"]
Inductive comment_tree : value -> Prop :=
| comment_leaf raw d g :
    getProp raw "data" = Ok d -> nullish d = false ->
    replies_guard d = Ok g -> truthy g = false ->
    comment_tree raw
| comment_node raw d cs :
    getProp raw "data" = Ok d -> nullish d = false ->
    replies_guard d = Ok (VArr cs) ->
    Forall (fun c => nullish c = false) cs ->
    Forall (fun c => holds (is_t1 c) = true -> comment_tree c) cs ->
    comment_tree raw.

(** The test of [getCredentials]: one of the four variables is unset or
    empty. *)
Definition credentials_missing (e : environment) : bool :=
  negb (truthy_str (REDDIT_CLIENT_ID e))
  || negb (truthy_str (REDDIT_CLIENT_SECRET e))
  || negb (truthy_str (REDDIT_USERNAME e))
  || negb (truthy_str (REDDIT_PASSWORD e)).

Definition missing_credentials_error : exn :=
  Error "Missing Reddit credentials. Set REDDIT_CLIENT_ID, REDDIT_CLIENT_SECRET, REDDIT_USERNAME, REDDIT_PASSWORD".

(** Endpoints of the API requests, oldest first. *)
Fixpoint api_endpoints (l : list event) : list string :=
  match l with
  | [] => []
  | ApiRequest _ ep _ _ :: rest => (api_endpoints rest ++ [ep])%list
  | _ :: rest => api_endpoints rest
  end.

(** A computation that sends at most [k] API requests, whatever its
    outcome. *)
Definition requests_at_most {A} (k : nat) (m : M A) : Prop :=
  forall w r w', m w = (r, w') ->
    length (api_times (log w')) <= length (api_times (log w)) + k.

(** * Properties *)

(** ** The exception monad *)

Lemma bind_Ok_inv {A B} (m : result A) (f : A -> result B) (b : B) :
  (m ≫= f) = Ok b -> exists a, m = Ok a /\ f a = Ok b.
Proof. destruct m as [a|e]; simpl; [eauto | discriminate]. Qed.

Lemma mapR_ext_in {A B} (f g : A -> result B) (l : list A) :
  (forall x, x ∈ l -> f x = g x) -> mapR f l = mapR g l.
Proof.
  induction l as [|x tl IH]; intros Hfg; simpl; [reflexivity|].
  rewrite (Hfg x) by left.
  rewrite IH; [reflexivity|]. intros y Hy. apply Hfg. by right.
Qed.

Lemma mapR_Forall2 {A B} (f : A -> result B) (l : list A) (rs : list B) :
  mapR f l = Ok rs <-> Forall2 (fun x r => f x = Ok r) l rs.
Proof.
  revert rs. induction l as [|x tl IH]; intros rs; simpl.
  - split.
    + intros [= <-]. constructor.
    + intros H. inversion H. reflexivity.
  - split.
    + intros H. apply bind_Ok_inv in H as (y & Hy & H).
      apply bind_Ok_inv in H as (ys & Hys & [= <-]).
      constructor; [assumption|]. by apply IH.
    + intros H. inversion H as [|? r ? rs' Hx Htl]; subst.
      rewrite Hx. simpl. apply IH in Htl. rewrite Htl. reflexivity.
Qed.

Lemma filterR_elem {A} (p : A -> result bool) (l kept : list A) :
  filterR p l = Ok kept ->
  forall x, x ∈ kept -> x ∈ l /\ p x = Ok true.
Proof.
  revert kept. induction l as [|y tl IH]; intros kept; simpl.
  - intros [= <-] x Hx. inversion Hx.
  - intros H. apply bind_Ok_inv in H as (b & Hb & H).
    apply bind_Ok_inv in H as (ys & Hys & [= <-]).
    intros x Hx. destruct b.
    + apply elem_of_cons in Hx as [->|Hx].
      * split; [left|assumption].
      * destruct (IH _ Hys x Hx). split; [by right|assumption].
    + destruct (IH _ Hys x Hx). split; [by right|assumption].
Qed.

Lemma filterR_filter {A} (p : A -> result bool) (l kept : list A) :
  filterR p l = Ok kept -> kept = List.filter (fun x => holds (p x)) l.
Proof.
  revert kept. induction l as [|y tl IH]; intros kept; simpl.
  - intros [= <-]. reflexivity.
  - intros H. apply bind_Ok_inv in H as (b & Hb & H).
    apply bind_Ok_inv in H as (ys & Hys & [= <-]).
    rewrite Hb. simpl. rewrite <- (IH _ Hys). destruct b; reflexivity.
Qed.

(** ** Nesting height and the recursion bound of [parseComment] *)

Lemma height_lookup_prop k ps : height (lookup_prop k ps) < height (VObj ps).
Proof.
  induction ps as [|[k' v] tl IH]; simpl in *; [lia|].
  destruct (String.eqb k k'); lia.
Qed.

Lemma height_getProp v k w : getProp v k = Ok w -> height w <= height v.
Proof.
  destruct v; simpl; intros [= <-]; simpl; try lia.
  pose proof (height_lookup_prop k props). simpl in *. lia.
Qed.

Lemma height_asArray v l :
  asArray v = Ok l -> forall c, c ∈ l -> height c < height v.
Proof.
  destruct v; simpl; try discriminate. intros [= <-] c Hc.
  induction Hc; simpl in *; lia.
Qed.

Lemma height_reply_nodes raw kept :
  reply_nodes raw = Ok (Some kept) ->
  forall c, c ∈ kept -> height c < height raw.
Proof.
  unfold reply_nodes. intros H c Hc.
  apply bind_Ok_inv in H as (d & Hd & H).
  apply bind_Ok_inv in H as (g & Hg & H).
  destruct (truthy g); [|discriminate].
  apply bind_Ok_inv in H as (r & Hr & H).
  apply bind_Ok_inv in H as (rd & Hrd & H).
  apply bind_Ok_inv in H as (children & Hch & H).
  apply bind_Ok_inv in H as (arr & Harr & H).
  apply bind_Ok_inv in H as (kept' & Hkept & [= <-]).
  apply (filterR_elem _ _ _ Hkept) in Hc as [Hc _].
  apply (height_asArray _ _ Harr) in Hc.
  apply height_getProp in Hd, Hr, Hrd, Hch. lia.
Qed.

Lemma parseComment_rec_bound b1 b2 raw depth :
  height raw < b1 -> height raw < b2 ->
  parseComment_rec b1 raw depth = parseComment_rec b2 raw depth.
Proof.
  revert b2 raw depth. induction b1 as [|b1 IH]; intros b2 raw depth H1 H2;
    [lia|].
  destruct b2 as [|b2]; [lia|]. simpl.
  destruct (commentBase raw depth) as [comment|e]; simpl; [|reflexivity].
  destruct (reply_nodes raw) as [[kept|]|e] eqn:Hn; simpl; try reflexivity.
  rewrite (mapR_ext_in _ (fun c => parseComment_rec b2 c (depth + 1)) kept);
    [reflexivity|].
  intros c Hc. pose proof (height_reply_nodes _ _ Hn c Hc).
  apply IH; lia.
Qed.

(** The recursion equation of [parseComment], as the source reads. *)
Lemma parseComment_eq raw depth :
  parseComment raw depth =
    (comment ← commentBase raw depth;
     nodes ← reply_nodes raw;
     match nodes with
     | Some kept =>
         rs ← mapR (fun c => parseComment c (depth + 1)) kept;
         mret (with_replies comment rs)
     | None => mret comment
     end).
Proof.
  unfold parseComment at 1. simpl.
  destruct (commentBase raw depth) as [comment|e]; simpl; [|reflexivity].
  destruct (reply_nodes raw) as [[kept|]|e] eqn:Hn; simpl; try reflexivity.
  rewrite (mapR_ext_in _ (fun c => parseComment c (depth + 1)) kept);
    [reflexivity|].
  intros c Hc. pose proof (height_reply_nodes _ _ Hn c Hc).
  unfold parseComment. apply parseComment_rec_bound; lia.
Qed.

(** ** [parsePost] *)

Lemma post_data_not_nullish raw d : post_data raw = Ok d -> nullish d = false.
Proof.
  unfold post_data. intros H. apply bind_Ok_inv in H as (rd & Hrd & [= <-]).
  unfold js_or. destruct (truthy rd) eqn:Ht.
  - destruct rd as [| | |[|]| | |]; simpl in *; congruence.
  - destruct raw; simpl in *; congruence.
Qed.

(** C6. Whatever shape the raw post has, [parsePost] returns a record in
    which a field missing from the post's data object takes its fixed
    default: the empty string for the title and the body text,
    ["[deleted]"] for the author, 0 for upvotes, comment count and score,
    and [false] for the adult-content flag. *)
Theorem parsePost_defaults (raw d : value) :
  post_data raw = Ok d ->
  exists p, parsePost raw = Ok p
    /\ (getProp d "title" = Ok VUndef -> title p = VStr "")
    /\ (getProp d "selftext" = Ok VUndef -> selftext p = VStr "")
    /\ (getProp d "author" = Ok VUndef -> author p = VStr "[deleted]")
    /\ (getProp d "ups" = Ok VUndef -> upvotes p = VNum (Int 0))
    /\ (getProp d "num_comments" = Ok VUndef -> num_comments p = VNum (Int 0))
    /\ (getProp d "score" = Ok VUndef -> score p = VNum (Int 0))
    /\ (getProp d "over_18" = Ok VUndef -> over_18 p = VBool false).
Proof.
  intros Hd. pose proof (post_data_not_nullish _ _ Hd) as Hn.
  unfold parsePost. rewrite Hd.
  destruct d; try discriminate Hn; simpl;
    (eexists; split; [reflexivity|]; simpl;
     repeat split; intros [= ->]; reflexivity).
Qed.

(** C9, as amended. A Thing wrapper whose [data] is the object [d] maps to
    the same result as [d] passed unwrapped, provided [d] has no truthy
    [data] property of its own; and the canonical URL of the record is the
    site prefix followed by the permalink of [d]. *)
Theorem parsePost_dual_shape (wrapper ps : list (string * value)) :
  lookup_prop "data" wrapper = VObj ps ->
  truthy (lookup_prop "data" ps) = false ->
  parsePost (VObj wrapper) = parsePost (VObj ps)
  /\ exists p, parsePost (VObj ps) = Ok p
       /\ post_url p
          = "https://reddit.com" +:+ toString (lookup_prop "permalink" ps).
Proof.
  intros Hw Hd. unfold parsePost, post_data. simpl.
  rewrite Hw. unfold js_or. rewrite Hd. simpl.
  split; [reflexivity|]. eexists. split; reflexivity.
Qed.

(** ** [parseComment] *)

Lemma commentBase_replies raw n base :
  commentBase raw n = Ok base -> replies base = None /\ depth base = n.
Proof.
  unfold commentBase. intros H.
  repeat (apply bind_Ok_inv in H as (? & _ & H)).
  injection H as <-. split; reflexivity.
Qed.

Lemma commentBase_total raw depth d :
  getProp raw "data" = Ok d -> nullish d = false ->
  exists base, commentBase raw depth = Ok base.
Proof.
  intros Hd Hn. unfold commentBase. rewrite Hd.
  destruct d; try discriminate Hn; simpl; eexists; reflexivity.
Qed.

Lemma replies_guard_truthy d g :
  replies_guard d = Ok g -> truthy g = true ->
  exists r rd, getProp d "replies" = Ok r /\ getProp r "data" = Ok rd
               /\ getProp rd "children" = Ok g.
Proof.
  unfold replies_guard. intros H Hg.
  apply bind_Ok_inv in H as (r & Hr & H).
  destruct (truthy r) eqn:Htr.
  - apply bind_Ok_inv in H as (rd & Hrd & H).
    destruct (truthy rd) eqn:Htrd.
    + eauto.
    + injection H as <-. congruence.
  - injection H as <-. congruence.
Qed.

Lemma reply_nodes_guard raw d g :
  getProp raw "data" = Ok d -> replies_guard d = Ok g ->
  reply_nodes raw =
    if truthy g then arr ← asArray g; kept ← filterR is_t1 arr; mret (Some kept)
    else Ok None.
Proof.
  intros Hd Hg. unfold reply_nodes. rewrite Hd. simpl. rewrite Hg. simpl.
  destruct (truthy g) eqn:Ht; [|reflexivity].
  destruct (replies_guard_truthy _ _ Hg Ht) as (r & rd & -> & Hrd & Hch).
  simpl. rewrite Hrd. simpl. rewrite Hch. reflexivity.
Qed.

(** C2, as amended. The [replies] field is absent exactly when the guard
    [d.replies && d.replies.data && d.replies.data.children] fails: then
    [parseComment] returns the record without the field, and when the guard
    holds every record it returns has the field. In particular, when the
    guard holds and no child of the listing is a comment, the field is
    present and holds the empty list. *)
Theorem parseComment_replies_field (raw d g : value) (n : nat)
    (base : Comment) :
  getProp raw "data" = Ok d ->
  replies_guard d = Ok g ->
  commentBase raw n = Ok base ->
  (truthy g = false ->
     parseComment raw n = Ok base /\ replies base = None)
  /\ (truthy g = true ->
      forall c, parseComment raw n = Ok c -> exists rs, replies c = Some rs)
  /\ (forall cs, g = VArr cs -> filterR is_t1 cs = Ok [] ->
        parseComment raw n = Ok (with_replies base [])
        /\ replies (with_replies base []) = Some []).
Proof.
  intros Hd Hg Hb. split; [|split].
  - intros Ht. rewrite parseComment_eq, Hb. simpl.
    rewrite (reply_nodes_guard _ _ _ Hd Hg), Ht. simpl.
    split; [reflexivity|]. by apply commentBase_replies in Hb as [? _].
  - intros Ht c. rewrite parseComment_eq, Hb. simpl.
    rewrite (reply_nodes_guard _ _ _ Hd Hg), Ht. simpl.
    intros H. apply bind_Ok_inv in H as (nodes & Hn & H).
    apply bind_Ok_inv in Hn as (arr & _ & Hn).
    apply bind_Ok_inv in Hn as (kept & _ & [= <-]).
    apply bind_Ok_inv in H as (rs & _ & [= <-]). by exists rs.
  - intros cs -> Hf. rewrite parseComment_eq, Hb. simpl.
    rewrite (reply_nodes_guard _ _ _ Hd Hg). simpl. rewrite Hf. simpl.
    split; reflexivity.
Qed.

(** C5. When the guard holds and the listing's children are the array
    [cs], [parseComment] returns exactly the record whose [replies] are the
    images, at [depth + 1] and in order, of the children that [filter]
    keeps; every kept child has kind ["t1"], so no record is built for a
    placeholder. *)
Theorem parseComment_filters_placeholders (raw d : value) (cs : list value)
    (n : nat) (c : Comment) :
  getProp raw "data" = Ok d ->
  replies_guard d = Ok (VArr cs) ->
  parseComment raw n = Ok c <->
  exists base kept rs,
    commentBase raw n = Ok base
    /\ filterR is_t1 cs = Ok kept
    /\ kept = List.filter (fun k => holds (is_t1 k)) cs
    /\ Forall (fun k => is_t1 k = Ok true) kept
    /\ Forall2 (fun k r => parseComment k (n + 1) = Ok r) kept rs
    /\ c = with_replies base rs.
Proof.
  intros Hd Hg. rewrite parseComment_eq.
  rewrite (reply_nodes_guard _ _ _ Hd Hg). simpl. split.
  - intros Hc. apply bind_Ok_inv in Hc as (base & Hb & Hc).
    destruct (filterR is_t1 cs) as [kept|e] eqn:Hf; simpl in Hc;
      [|discriminate].
    apply bind_Ok_inv in Hc as (rs & Hrs & [= <-]).
    exists base, kept, rs. split; [assumption|]. split; [reflexivity|].
    split; [by eapply filterR_filter|].
    split; [apply Forall_forall; intros k Hk;
            by destruct (filterR_elem _ _ _ Hf k Hk)|].
    split; [by apply mapR_Forall2 | reflexivity].
  - intros (base & kept & rs & Hb & Hf & _ & _ & Hrs & ->).
    rewrite Hb. simpl. rewrite Hf. simpl.
    apply mapR_Forall2 in Hrs. rewrite Hrs. reflexivity.
Qed.

Lemma nested_from_with_replies n base rs :
  depth base = n -> Forall (nested_from (S n)) rs ->
  nested_from n (with_replies base rs).
Proof. intros Hn Hrs. by eapply nested_node. Qed.

Lemma parseComment_rec_nested b raw n c :
  parseComment_rec b raw n = Ok c -> nested_from n c.
Proof.
  revert raw n c. induction b as [|b IH]; intros raw n c; simpl;
    [discriminate|].
  intros H. apply bind_Ok_inv in H as (base & Hb & H).
  apply commentBase_replies in Hb as [Hnone Hdepth].
  apply bind_Ok_inv in H as ([kept|] & _ & H).
  - apply bind_Ok_inv in H as (rs & Hrs & [= <-]).
    apply nested_from_with_replies; [assumption|].
    apply mapR_Forall2 in Hrs.
    replace (S n) with (n + 1) by lia.
    clear -Hrs IH. induction Hrs; constructor; eauto.
  - injection H as <-. by apply nested_leaf.
Qed.

Lemma parseComment_nested raw n c :
  parseComment raw n = Ok c -> nested_from n c.
Proof. apply parseComment_rec_nested. Qed.

(** What [nested_from] says of a node and its children. *)
Lemma nested_from_child n c :
  nested_from n c ->
  depth c = n
  /\ forall rs, replies c = Some rs ->
       Forall (fun r => depth r = S (depth c) /\ nested_from (S n) r) rs.
Proof.
  intros H. inversion H as [? ? Hd Hr|? ? rs' Hd Hr Hall]; subst.
  - split; [reflexivity|]. intros rs Hrs. congruence.
  - split; [reflexivity|]. intros rs Hrs.
    rewrite Hr in Hrs. injection Hrs as <-.
    eapply Forall_impl; [exact Hall|]. intros r Hn. split; [|assumption].
    inversion Hn; assumption.
Qed.

(** ** The state-and-exception monad *)

Lemma bindM_Ok_inv {A B} (m : M A) (f : A -> M B) (w w' : world) (b : B) :
  (m ≫= f) w = (Ok b, w') ->
  exists a w1, m w = (Ok a, w1) /\ f a w1 = (Ok b, w').
Proof.
  unfold mbind, M_bind. destruct (m w) as [[a|e] w1]; [eauto|discriminate].
Qed.

Lemma lift_inv {A} (r : result A) (w w' : world) (r' : result A) :
  lift r w = (r', w') -> r' = r /\ w' = w.
Proof. unfold lift. intros [= <- <-]. split; reflexivity. Qed.

(** ** [thread] *)

Lemma threadResult_nested data r :
  threadResult data = Ok r -> Forall (nested_from 0) (thread_comments r).
Proof.
  unfold threadResult. intros H.
  do 10 (apply bind_Ok_inv in H as (? & _ & H)).
  apply bind_Ok_inv in H as (comments & Hc & [= <-]). simpl.
  apply mapR_Forall2 in Hc. clear -Hc.
  induction Hc; constructor; eauto using parseComment_nested.
Qed.

Lemma thread_inv sub pid opts w w' r :
  thread sub pid opts w = (Ok r, w') ->
  exists data,
    apiGet (thread_endpoint sub pid opts) w = (Ok data, w')
    /\ threadResult data = Ok r.
Proof.
  unfold thread. intros H.
  apply bindM_Ok_inv in H as (data & w1 & Hget & H).
  apply lift_inv in H as [H ->]. eauto.
Qed.

(** C8. In the forest that [thread] returns, every top-level comment is
    the root of a tree rooted at depth 0: its depth is 0 and, all the way
    down, the depth of a child is the depth of its parent plus 1. *)
Theorem thread_depths (sub pid : string) (opts : ThreadOpts)
    (w w' : world) (r : ThreadResult) :
  thread sub pid opts w = (Ok r, w') ->
  Forall (fun c => depth c = 0 /\ nested_from 0 c) (thread_comments r).
Proof.
  intros H. apply thread_inv in H as (data & _ & H).
  apply threadResult_nested in H.
  eapply Forall_impl; [exact H|]. intros c Hc. split; [|assumption].
  by apply nested_from_child in Hc as [? _].
Qed.

(** C4. When the response is a pair of listings, the first with children
    [first :: rest] and the second with children [cs], [thread] returns
    exactly the records whose post is the image of [first] under
    [parsePost] and whose comments are the images at depth 0, in order, of
    the children of kind ["t1"] among [cs]. *)
Theorem thread_unwrap (sub pid : string) (opts : ThreadOpts) (w w' : world)
    (l0 l1 d0 d1 first : value) (rest cs : list value) (r : ThreadResult) :
  apiGet (thread_endpoint sub pid opts) w = (Ok (VArr [l0; l1]), w') ->
  getProp l0 "data" = Ok d0 ->
  getProp d0 "children" = Ok (VArr (first :: rest)) ->
  getProp l1 "data" = Ok d1 ->
  getPropOpt d1 "children" = Ok (VArr cs) ->
  thread sub pid opts w = (Ok r, w') <->
  exists kept,
    parsePost first = Ok (thread_post r)
    /\ filterR is_t1 cs = Ok kept
    /\ kept = List.filter (fun k => holds (is_t1 k)) cs
    /\ Forall (fun k => is_t1 k = Ok true) kept
    /\ Forall2 (fun k c => parseComment k 0 = Ok c /\ depth c = 0)
         kept (thread_comments r).
Proof.
  intros Hget H0 Hc0 H1 Hc1. unfold thread.
  unfold mbind at 1. unfold M_bind. rewrite Hget. unfold lift.
  unfold threadResult. simpl. rewrite H0. simpl. rewrite Hc0. simpl.
  rewrite H1. simpl. rewrite Hc1. simpl. split.
  - intros [= H]. apply bind_Ok_inv in H as (post & Hp & H).
    apply bind_Ok_inv in H as (kept & Hk & H).
    apply bind_Ok_inv in H as (comments & Hcs & [= <-]). simpl.
    exists kept. split; [assumption|]. split; [assumption|].
    split; [by eapply filterR_filter|].
    split; [apply Forall_forall; intros k Hin;
            by destruct (filterR_elem _ _ _ Hk k Hin)|].
    apply mapR_Forall2 in Hcs.
    eapply Forall2_impl; [exact Hcs|]. simpl. intros k c Hkc.
    split; [assumption|].
    by apply parseComment_nested, nested_from_child in Hkc as [? _].
  - intros (kept & Hp & Hk & _ & _ & Hcs). rewrite Hp. simpl.
    rewrite Hk. simpl.
    assert (mapR (fun c => parseComment c 0) kept = Ok (thread_comments r))
      as ->.
    { apply mapR_Forall2. eapply Forall2_impl; [exact Hcs|].
      simpl. intros ? ? [? _]. assumption. }
    simpl. destruct r; reflexivity.
Qed.

(** ** [getToken] *)

Lemma getToken_cached w :
  token_fresh w = true -> getToken w = (Ok (accessToken w), w).
Proof.
  unfold token_fresh, getToken. intros H.
  unfold mbind, M_bind, gets. simpl in *. rewrite H. reflexivity.
Qed.

(** The world after a successful exchange started in [w]. *)
Lemma getToken_exchange w c data tok ei :
  token_fresh w = false ->
  getCredentials w = (Ok c, w) ->
  resp_ok (net w (sent w)) = true ->
  resp_json (net w (sent w)) = Some data ->
  getProp data "access_token" = Ok tok ->
  getProp data "expires_in" = Ok ei ->
  let arrival := (now w + Z.of_N (resp_latency (net w (sent w))))%Z in
  getToken w =
    (Ok tok,
     mkWorld (env w) arrival tok
       (num_add (Int arrival) (num_mul (toNumber ei) (Int 1000)))
       (net w) (S (sent w))
       (AuthRequest (now w) (clientId c) (clientSecret c) (username c)
          (password c) :: log w)
       (cache w)).
Proof.
  unfold token_fresh, getToken. intros Hf Hc Hok Hjson Htok Hei.
  unfold mbind at 1 2 3. unfold M_bind, gets. simpl in *. rewrite Hf.
  unfold mbind at 1. unfold M_bind. rewrite Hc.
  unfold fetch, response_json, lift, modify, gets, mbind, M_bind, mret, M_ret.
  simpl. rewrite Hok. simpl. rewrite Hjson. rewrite Htok. simpl.
  rewrite Hei. reflexivity.
Qed.

(** C3. A world whose cached token exists and is more than five minutes
    from its expiry answers [getToken] from the cache and is left as it
    was: no request is made. From a world [w] where that test fails, with
    the four credentials set and the token endpoint answering with success,
    [getToken] makes one auth request and caches the new token with expiry
    "arrival time + expires_in * 1000"; a second call [delta] ms later, still
    more than five minutes before that expiry, returns the same token and
    makes no request, so the two calls make exactly one auth request. *)
Theorem getToken_reuse (w : world) (c : Credentials) (data tok : value)
    (ei delta : Z) :
  token_fresh w = false ->
  getCredentials w = (Ok c, w) ->
  resp_ok (net w (sent w)) = true ->
  resp_json (net w (sent w)) = Some data ->
  getProp data "access_token" = Ok tok ->
  truthy tok = true ->
  getProp data "expires_in" = Ok (VNum (Int ei)) ->
  (0 <= delta < ei * 1000 - 5 * 60 * 1000)%Z ->
  (forall w0, token_fresh w0 = true ->
              getToken w0 = (Ok (accessToken w0), w0))
  /\ exists w1,
      getToken w = (Ok tok, w1)
      /\ accessToken w1 = tok
      /\ tokenExpiry w1 = Int (now w1 + ei * 1000)
      /\ auth_calls (log w1) = S (auth_calls (log w))
      /\ sent w1 = S (sent w)
      /\ getToken (elapse delta w1) = (Ok tok, elapse delta w1)
      /\ auth_calls (log (elapse delta w1)) = S (auth_calls (log w)).
Proof.
  intros Hf Hc Hok Hjson Htok Htruthy Hei Hdelta.
  split; [exact getToken_cached|].
  eexists. split; [by eapply getToken_exchange|]. simpl.
  repeat split.
  rewrite getToken_cached; [reflexivity|].
  unfold token_fresh. simpl. rewrite Htruthy. simpl.
  apply Z.ltb_lt. lia.
Qed.

(** ** Pacing *)

Lemma paced_mono l : forall n n', (n <= n')%Z -> paced n l -> paced n' l.
Proof.
  induction l as [|e l IH]; intros n n' Hle; simpl; [trivial|].
  destruct e as [| t ep a ok |]; eauto.
  intros [H Hrest]. split; [|assumption]. destruct ok; lia.
Qed.

Lemma getCredentials_world w r w' : getCredentials w = (r, w') -> w' = w.
Proof.
  unfold getCredentials, mbind, M_bind, gets, throw, mret, M_ret. simpl.
  destruct (REDDIT_CLIENT_ID (env w)), (REDDIT_CLIENT_SECRET (env w)),
    (REDDIT_USERNAME (env w)), (REDDIT_PASSWORD (env w));
    try (intros [= <- <-]; reflexivity).
  match goal with |- context [if ?b then _ else _] => destruct b end;
    intros [= <- <-]; reflexivity.
Qed.

(** [getToken] never moves the clock back and writes at most one event,
    an auth request. *)
Lemma getToken_effect w r w1 :
  getToken w = (r, w1) ->
  (now w <= now w1)%Z
  /\ (log w1 = log w
      \/ exists t i s u p, log w1 = AuthRequest t i s u p :: log w).
Proof.
  unfold getToken. unfold mbind at 1 2 3. unfold M_bind, gets. simpl.
  match goal with |- context [if ?b then _ else _] => destruct b end.
  { intros [= <- <-]. split; [lia | by left]. }
  unfold mbind at 1. unfold M_bind.
  destruct (getCredentials w) as [[c|e] w0] eqn:Hc;
    apply getCredentials_world in Hc as ->.
  2:{ intros [= <- <-]. split; [lia | by left]. }
  unfold fetch, response_json, lift, modify, gets, throw, mbind, M_bind,
    mret, M_ret. simpl.
  pose proof (N2Z.is_nonneg (resp_latency (net w (sent w)))) as Hlat.
  destruct (resp_ok (net w (sent w))); simpl.
  2:{ intros [= <- <-]. simpl. split; [lia | right; eauto 10]. }
  destruct (resp_json (net w (sent w))) as [data|]; simpl.
  2:{ intros [= <- <-]. simpl. split; [lia | right; eauto 10]. }
  destruct (getProp data "access_token") as [tok|e]; simpl.
  2:{ intros [= <- <-]. simpl. split; [lia | right; eauto 10]. }
  destruct (getProp data "expires_in") as [ei|e]; simpl;
    intros [= <- <-]; simpl; (split; [lia | right; eauto 10]).
Qed.

Lemma getToken_paced w r w1 :
  getToken w = (r, w1) -> paced (now w) (log w) -> paced (now w1) (log w1).
Proof.
  intros H Hp. apply getToken_effect in H as [Hle Hlog].
  apply (paced_mono _ _ _ Hle) in Hp.
  destruct Hlog as [->|(t & i & s & u & p & ->)]; exact Hp.
Qed.

(** [apiGet] once the token is in hand. *)
Lemma apiGet_after_token endpoint w tok w1 :
  getToken w = (Ok tok, w1) ->
  let resp := net w1 (sent w1) in
  let arrival := (now w1 + Z.of_N (resp_latency resp))%Z in
  let bearer := "Bearer " +:+ toString tok in
  apiGet endpoint w =
    if resp_ok resp
    then (match resp_json resp with
          | Some v => Ok v
          | None => Throw SyntaxError
          end,
          mkWorld (env w1) (arrival + RATE_DELAY_MS) (accessToken w1)
            (tokenExpiry w1) (net w1) (S (sent w1))
            (Slept arrival RATE_DELAY_MS
               :: ApiRequest (now w1) endpoint bearer true :: log w1)
            (cache w1))
    else (Throw (Error ("Reddit API error: " +:+ pretty (resp_status resp)
                          +:+ " " +:+ resp_text resp)),
          mkWorld (env w1) arrival (accessToken w1) (tokenExpiry w1)
            (net w1) (S (sent w1))
            (ApiRequest (now w1) endpoint bearer false :: log w1)
            (cache w1)).
Proof.
  intros Hg. unfold apiGet. unfold mbind at 1. unfold M_bind. rewrite Hg.
  unfold fetch, sleep, response_json, modify, gets, throw, mbind, M_bind,
    mret, M_ret. simpl.
  destruct (resp_ok (net w1 (sent w1))); simpl; [|reflexivity].
  destruct (resp_json (net w1 (sent w1))); reflexivity.
Qed.

Lemma apiGet_token_throws endpoint w e w1 :
  getToken w = (Throw e, w1) -> apiGet endpoint w = (Throw e, w1).
Proof.
  intros Hg. unfold apiGet. unfold mbind at 1. unfold M_bind.
  rewrite Hg. reflexivity.
Qed.

Lemma apiGet_keeps_pace endpoint : keeps_pace (apiGet endpoint).
Proof.
  intros w r w' Hapi Hp.
  destruct (getToken w) as [[tok|e] w1] eqn:Hg.
  - pose proof (getToken_paced _ _ _ Hg Hp) as Hp1.
    rewrite (apiGet_after_token _ _ _ _ Hg) in Hapi.
    pose proof (N2Z.is_nonneg (resp_latency (net w1 (sent w1)))) as Hlat.
    destruct (resp_ok (net w1 (sent w1))); injection Hapi as <- <-; simpl;
      unfold RATE_DELAY_MS; (split; [lia | assumption]).
  - rewrite (apiGet_token_throws _ _ _ _ Hg) in Hapi.
    injection Hapi as <- <-. by eapply getToken_paced.
Qed.

(** C1, as amended. [apiGet] first obtains the token (world [w1]) and then
    issues the request. On a success status it sleeps [RATE_DELAY_MS]
    after the response has arrived and before it returns, so it returns no
    sooner than 600 ms after the request was issued; on any other status it
    throws the API error at once, with no delay. Either way it keeps the log
    [paced]: a request that follows a successful one is issued at least
    600 ms after it. *)
Theorem apiGet_paces (endpoint : string) (w w1 w' : world) (tok : value)
    (r : result value) :
  getToken w = (Ok tok, w1) ->
  apiGet endpoint w = (r, w') ->
  paced (now w) (log w) ->
  let resp := net w1 (sent w1) in
  let arrival := (now w1 + Z.of_N (resp_latency resp))%Z in
  paced (now w') (log w')
  /\ (resp_ok resp = true ->
      log w' = Slept arrival RATE_DELAY_MS
                 :: ApiRequest (now w1) endpoint
                      ("Bearer " +:+ toString tok) true :: log w1
      /\ now w' = (arrival + RATE_DELAY_MS)%Z
      /\ (now w1 + RATE_DELAY_MS <= now w')%Z)
  /\ (resp_ok resp = false ->
      r = Throw (Error ("Reddit API error: " +:+ pretty (resp_status resp)
                          +:+ " " +:+ resp_text resp))
      /\ log w' = ApiRequest (now w1) endpoint
                    ("Bearer " +:+ toString tok) false :: log w1
      /\ now w' = arrival).
Proof.
  intros Hg Hapi Hp.
  split; [by eapply apiGet_keeps_pace|].
  rewrite (apiGet_after_token _ _ _ _ Hg) in Hapi.
  pose proof (N2Z.is_nonneg (resp_latency (net w1 (sent w1)))) as Hlat.
  destruct (resp_ok (net w1 (sent w1))); injection Hapi as <- <-; simpl;
    unfold RATE_DELAY_MS.
  - split; [intros _; repeat split; lia | discriminate].
  - split; [discriminate | intros _; repeat split].
Qed.

(** *** Sequences of requests *)

Lemma keeps_pace_ret {A} (a : A) : keeps_pace (mret a).
Proof. intros w r w' [= <- <-] Hp. exact Hp. Qed.

Lemma keeps_pace_lift {A} (r : result A) : keeps_pace (lift r).
Proof. intros w r' w' [= <- <-] Hp. exact Hp. Qed.

Lemma keeps_pace_bind {A B} (m : M A) (f : A -> M B) :
  keeps_pace m -> (forall a, keeps_pace (f a)) -> keeps_pace (m ≫= f).
Proof.
  intros Hm Hf w r w' H Hp. unfold mbind, M_bind in H.
  destruct (m w) as [[a|e] w1] eqn:Hmw.
  - eapply Hf; [exact H|]. by eapply Hm.
  - injection H as <- <-. by eapply Hm.
Qed.

Lemma keeps_pace_try_catch {A} (m : M A) (h : exn -> M A) :
  keeps_pace m -> (forall e, keeps_pace (h e)) -> keeps_pace (try_catch m h).
Proof.
  intros Hm Hh w r w' H Hp. unfold try_catch in H.
  destruct (m w) as [[a|e] w1] eqn:Hmw.
  - injection H as <- <-. by eapply Hm.
  - eapply Hh; [exact H|]. by eapply Hm.
Qed.

Lemma profile_keeps_pace u count : keeps_pace (profile u count).
Proof.
  unfold profile.
  cbv zeta.
  repeat first
    [ apply apiGet_keeps_pace
    | apply keeps_pace_lift
    | apply keeps_pace_ret
    | apply keeps_pace_bind; [|intros ?] ].
Qed.

Lemma thread_keeps_pace sub pid opts : keeps_pace (thread sub pid opts).
Proof.
  unfold thread. apply keeps_pace_bind; [apply apiGet_keeps_pace|].
  intros ?. apply keeps_pace_lift.
Qed.

(** The watchlist loop goes on after a failed [profile]; the log stays
    paced all the same, in the sense of [paced]. *)
Lemma watchlistCheck_keeps_pace users : keeps_pace (watchlistCheck users).
Proof.
  induction users as [|u rest IH]; simpl; [apply keeps_pace_ret|].
  apply keeps_pace_bind; [|intros ?; exact IH].
  apply keeps_pace_try_catch; [|intros ?; apply keeps_pace_ret].
  apply keeps_pace_bind; [apply profile_keeps_pace|].
  intros ?. apply keeps_pace_ret.
Qed.

(** ** [filterEngagement] and the [--min-upvotes] option *)

Lemma below_zero v : below (Some (Int 0)) v = false.
Proof. reflexivity. Qed.

Lemma filter_all_true {A} (l : list A) : List.filter (fun _ => true) l = l.
Proof. induction l as [|x l IH]; simpl; congruence. Qed.

(** C10. A threshold of 0 is read as no threshold: [filterEngagement]
    with [minUpvotes] (or [minComments]) 0 returns what it returns without
    that field, hence the whole list when the other field is not set; and
    [cmdSearch] run with [--min-upvotes 0] returns the posts it loaded,
    unfiltered. *)
Theorem zero_threshold_is_no_threshold (posts : list Post)
    (args : list string) (query : string) (w : world) :
  nth_error args 1 = Some query ->
  query <> "" ->
  getOpt args "min-upvotes" = Some "0" ->
  (forall mc, filterEngagement posts (mkEngagement (Some (Int 0)) mc)
              = filterEngagement posts (mkEngagement None mc))
  /\ (forall mu, filterEngagement posts (mkEngagement mu (Some (Int 0)))
                 = filterEngagement posts (mkEngagement mu None))
  /\ filterEngagement posts (mkEngagement (Some (Int 0)) None) = posts
  /\ filterEngagement posts (mkEngagement None (Some (Int 0))) = posts
  /\ filterEngagement posts (mkEngagement (Some (Int 0)) (Some (Int 0)))
     = posts
  /\ cmdSearch_minUpvotes args = Some (Int 0)
  /\ cmdSearch args w = cmdSearch_load args query w.
Proof.
  intros Hq Hne Hopt.
  assert (cmdSearch_minUpvotes args = Some (Int 0)) as Hmin.
  { unfold cmdSearch_minUpvotes. rewrite Hopt. reflexivity. }
  repeat split; try reflexivity;
    try (unfold filterEngagement; simpl; apply filter_all_true).
  - assumption.
  - unfold cmdSearch. rewrite Hq.
    destruct (String.eqb_spec query ""); [contradiction|].
    rewrite Hmin. simpl. unfold mbind, M_bind.
    destruct (cmdSearch_load args query w) as [[[ps fc]|e] w1]; reflexivity.
Qed.

(** ** The result cache *)

(** C7. A value stored under [key] at time [T] is what a lookup of [key]
    at time [T'] returns as long as [T' - T] is within the TTL given to the
    lookup; once [T' - T] exceeds that TTL, and for a key that was never
    stored, the lookup answers "absent". With a TTL of 900000 ms the value
    is there at [T + 800000] and absent at [T + 1000000]. *)
Theorem cache_ttl (store : gmap string CacheEntry) (key : string)
    (v : list Post) (T T' ttl : Z) :
  ((T' - T <= ttl)%Z ->
     cache_lookup (cache_store store key v T) key ttl T' = Some v)
  /\ ((T' - T > ttl)%Z ->
      cache_lookup (cache_store store key v T) key ttl T' = None)
  /\ (store !! key = None -> cache_lookup store key ttl T' = None)
  /\ cache_lookup (cache_store store key v T) key 900000 (T + 800000)
     = Some v
  /\ cache_lookup (cache_store store key v T) key 900000 (T + 1000000)
     = None.
Proof.
  unfold cache_lookup, cache_store. rewrite lookup_insert_eq. simpl.
  repeat split.
  - intros H. destruct (Z.ltb_spec ttl (T' - T)); [lia | reflexivity].
  - intros H. destruct (Z.ltb_spec ttl (T' - T)); [reflexivity | lia].
  - intros ->. reflexivity.
  - destruct (Z.ltb_spec 900000 (T + 800000 - T)); [lia | reflexivity].
  - destruct (Z.ltb_spec 900000 (T + 1000000 - T)); [reflexivity | lia].
Qed.

(** On a hit [cmdSearch] makes no request: the world is left as it is. *)
Lemma cmdSearch_load_hit args query w posts :
  cache_lookup (cache w)
    ("search:" +:+ query +:+ ":" +:+ str_or (getOpt args "subreddit") "all"
       +:+ ":" +:+ str_or (getOpt args "sort") "relevance"
       +:+ ":" +:+ str_or (getOpt args "time") "week"
       +:+ ":" +:+ num_toString
             (parseInt (str_or (getOpt args "limit")
                          (if getFlag args "quick" then "10" else "15"))))
    (if getFlag args "quick" then 60 * 60 * 1000 else 15 * 60 * 1000)%Z
    (now w) = Some posts ->
  cmdSearch_load args query w = (Ok (posts, true), w).
Proof.
  intros H. unfold cmdSearch_load, cache_get.
  unfold mbind, M_bind, gets, mret, M_ret. cbv zeta. rewrite H. reflexivity.
Qed.


(** * Further properties of the wrapper and of the CLI *)

(** ** [dedupe] *)

Lemma same_value_zero_eq a b :
  primitive a = true -> same_value_zero a b = true <-> a = b.
Proof.
  intros Hp.
  destruct a as [| |x|[|x]|x| |], b as [| |y|[|y]|y| |];
    simpl in *; try discriminate Hp;
    try (split; [discriminate | intros [=]]);
    try (split; reflexivity).
  - rewrite Bool.eqb_true_iff. split; [by intros -> | by intros [= ->]].
  - rewrite Z.eqb_eq. split; [by intros -> | by intros [= ->]].
  - rewrite String.eqb_eq. split; [by intros -> | by intros [= ->]].
Qed.

Lemma same_value_zero_sym a b :
  primitive a = true -> primitive b = true ->
  same_value_zero a b = same_value_zero b a.
Proof.
  intros Ha Hb.
  destruct (same_value_zero a b) eqn:Hab, (same_value_zero b a) eqn:Hba;
    try reflexivity.
  - apply same_value_zero_eq in Hab as ->; [|assumption].
    assert (same_value_zero b b = true) by by apply same_value_zero_eq.
    congruence.
  - apply same_value_zero_eq in Hba as ->; [|assumption].
    assert (same_value_zero a a = true) by by apply same_value_zero_eq.
    congruence.
Qed.

Lemma seen_has a seen :
  primitive a = true ->
  existsb (same_value_zero a) seen = true <-> a ∈ seen.
Proof.
  intros Hp. induction seen as [|b seen IH]; simpl.
  - split; [discriminate | intros H; inversion H].
  - rewrite orb_true_iff, elem_of_cons, IH, (same_value_zero_eq _ _ Hp).
    reflexivity.
Qed.

Lemma dedupe_from_spec seen posts :
  Forall (fun p => primitive (post_id p) = true) posts ->
  NoDup (post_id <$> dedupe_from seen posts)
  /\ (forall p, p ∈ dedupe_from seen posts -> post_id p ∉ seen)
  /\ sublist (dedupe_from seen posts) posts
  /\ Forall (fun p => primitive (post_id p) = true) (dedupe_from seen posts).
Proof.
  intros Hprim. revert seen.
  induction Hprim as [|p rest Hp _ IH]; intros seen; simpl.
  - repeat split; [constructor | intros p Hin; inversion Hin
                   | constructor | constructor].
  - destruct (existsb (same_value_zero (post_id p)) seen) eqn:Hseen.
    + destruct (IH seen) as (Hnd & Hout & Hsub & Hall).
      repeat split; [assumption | assumption | by apply sublist_cons
                     | assumption].
    + destruct (IH (post_id p :: seen)) as (Hnd & Hout & Hsub & Hall).
      assert (post_id p ∉ seen) as Hfresh.
      { intros Hin. apply (seen_has _ _ Hp) in Hin. congruence. }
      repeat split.
      * rewrite fmap_cons. apply NoDup_cons. split; [|assumption].
        intros Hin. apply list_elem_of_fmap in Hin as (q & Hq & Hin).
        apply Hout in Hin. apply Hin. rewrite Hq. left.
      * intros q Hin. apply elem_of_cons in Hin as [->|Hin];
          [assumption|].
        apply Hout in Hin. intros Hs. apply Hin. by right.
      * by apply sublist_skip.
      * by constructor.
Qed.

Lemma dedupe_from_find seen posts i :
  Forall (fun p => primitive (post_id p) = true) posts ->
  primitive i = true ->
  find (fun p => same_value_zero i (post_id p)) (dedupe_from seen posts)
  = if existsb (same_value_zero i) seen then None
    else find (fun p => same_value_zero i (post_id p)) posts.
Proof.
  intros Hprim Hi. revert seen.
  induction Hprim as [|p rest Hp _ IH]; intros seen; simpl.
  - by destruct (existsb _ seen).
  - destruct (existsb (same_value_zero (post_id p)) seen) eqn:Hseen.
    + rewrite IH.
      destruct (existsb (same_value_zero i) seen) eqn:Hi_seen;
        [reflexivity|].
      destruct (same_value_zero i (post_id p)) eqn:Hip; [|reflexivity].
      apply (same_value_zero_eq _ _ Hi) in Hip. rewrite Hip in Hi_seen.
      congruence.
    + simpl. rewrite IH. simpl.
      destruct (same_value_zero i (post_id p)) eqn:Hip; simpl;
        [|reflexivity].
      apply (same_value_zero_eq _ _ Hi) in Hip. rewrite Hip.
      by rewrite Hseen.
Qed.

(** X1. On posts whose ids are primitives, [dedupe] returns a sublist of
    its input in which no id occurs twice, and for every id the first post
    carrying it is the one that is kept. *)
Theorem dedupe_keeps_first (posts : list Post) :
  Forall (fun p => primitive (post_id p) = true) posts ->
  NoDup (post_id <$> dedupe posts)
  /\ sublist (dedupe posts) posts
  /\ forall i, primitive i = true ->
       find (fun p => same_value_zero i (post_id p)) (dedupe posts)
       = find (fun p => same_value_zero i (post_id p)) posts.
Proof.
  intros Hprim. unfold dedupe.
  destruct (dedupe_from_spec [] posts Hprim) as (Hnd & _ & Hsub & _).
  split; [assumption|]. split; [assumption|].
  intros i Hi. by rewrite dedupe_from_find.
Qed.

Lemma dedupe_from_nodup seen posts :
  Forall (fun p => primitive (post_id p) = true) posts ->
  NoDup (post_id <$> posts) ->
  (forall p, p ∈ posts -> post_id p ∉ seen) ->
  dedupe_from seen posts = posts.
Proof.
  intros Hprim. revert seen.
  induction Hprim as [|p rest Hp _ IH]; intros seen Hnd Hout; simpl;
    [reflexivity|].
  rewrite fmap_cons in Hnd. apply NoDup_cons in Hnd as [Hp_rest Hnd].
  destruct (existsb (same_value_zero (post_id p)) seen) eqn:Hseen.
  - apply (seen_has _ _ Hp) in Hseen. exfalso.
    apply (Hout p); [left | assumption].
  - f_equal. apply IH; [assumption|].
    intros q Hq Hin. apply elem_of_cons in Hin as [Heq|Hin].
    + apply Hp_rest. rewrite <- Heq. by apply list_elem_of_fmap_2.
    + apply (Hout q); [by right | assumption].
Qed.

(** X2. [dedupe] is idempotent, and a list without repeated ids comes
    back as it is (ids being primitives). *)
Theorem dedupe_idempotent (posts : list Post) :
  Forall (fun p => primitive (post_id p) = true) posts ->
  dedupe (dedupe posts) = dedupe posts
  /\ (NoDup (post_id <$> posts) -> dedupe posts = posts).
Proof.
  intros Hprim.
  assert (forall l, Forall (fun p => primitive (post_id p) = true) l ->
                    NoDup (post_id <$> l) -> dedupe l = l) as Hid.
  { intros l Hl Hnd. unfold dedupe. apply dedupe_from_nodup; try assumption.
    intros p _ Hin. inversion Hin. }
  split; [|by apply Hid].
  unfold dedupe at 2 3.
  destruct (dedupe_from_spec [] posts Hprim) as (Hnd & _ & _ & Hall).
  by apply Hid.
Qed.

(** ** [sortBy] *)

Lemma sort_compare_key metric key a b :
  toNumber (metric_of metric a) = Int (key a) ->
  toNumber (metric_of metric b) = Int (key b) ->
  num_pos (sort_compare metric a b) = (key a <? key b)%Z.
Proof.
  intros Ha Hb. unfold sort_compare. rewrite Ha, Hb. simpl.
  destruct (Z.ltb_spec 0 (key b - key a)), (Z.ltb_spec (key a) (key b));
    try reflexivity; lia.
Qed.

Lemma sort_insert_perm {A} (compare : A -> A -> number) x l :
  sort_insert compare x l ≡ₚ x :: l.
Proof.
  induction l as [|y tl IH]; simpl; [reflexivity|].
  destruct (num_pos (compare x y)); [|reflexivity].
  rewrite IH. apply Permutation_swap.
Qed.

Lemma array_sort_perm {A} (compare : A -> A -> number) l :
  array_sort compare l ≡ₚ l.
Proof.
  induction l as [|x tl IH]; simpl; [reflexivity|].
  unfold array_sort in *. simpl. rewrite sort_insert_perm. by rewrite IH.
Qed.

Lemma sort_insert_descending metric key x l :
  (forall p, p ∈ x :: l -> toNumber (metric_of metric p) = Int (key p)) ->
  descending key l ->
  descending key (sort_insert (sort_compare metric) x l).
Proof.
  induction l as [|y tl IH]; intros Hkey Hd; simpl.
  - split; [constructor | exact I].
  - rewrite (sort_compare_key metric key) by (apply Hkey; repeat constructor).
    destruct Hd as [Hall Hd].
    destruct (Z.ltb_spec (key x) (key y)) as [Hlt|Hge]; simpl.
    + split.
      * rewrite sort_insert_perm. constructor; [lia | assumption].
      * apply IH; [|assumption]. intros p Hp. apply Hkey.
        apply elem_of_cons in Hp as [->|Hp]; [left | by do 2 right].
    + split; [|split; assumption].
      constructor; [assumption|].
      eapply Forall_impl; [exact Hall|]. simpl. intros; lia.
Qed.

Lemma sort_insert_stable metric key x l k :
  (forall p, p ∈ x :: l -> toNumber (metric_of metric p) = Int (key p)) ->
  List.filter (fun p => (key p =? k)%Z)
    (sort_insert (sort_compare metric) x l)
  = List.filter (fun p => (key p =? k)%Z) (x :: l).
Proof.
  induction l as [|y tl IH]; intros Hkey; simpl; [reflexivity|].
  rewrite (sort_compare_key metric key) by (apply Hkey; repeat constructor).
  destruct (Z.ltb_spec (key x) (key y)) as [Hlt|Hge]; simpl;
    [|reflexivity].
  rewrite IH; cycle 1.
  { intros p Hp. apply Hkey.
    apply elem_of_cons in Hp as [->|Hp]; [left | by do 2 right]. }
  simpl.
  destruct (Z.eqb_spec (key x) k), (Z.eqb_spec (key y) k);
    try reflexivity; lia.
Qed.

(** X3. When the metric of every post is a number, [sortBy] returns a
    rearrangement of its input in which the metric never increases from
    one post to the next. *)
Theorem sortBy_sorted (posts : list Post) (metric : string)
    (key : Post -> Z) :
  (forall p, p ∈ posts -> toNumber (metric_of metric p) = Int (key p)) ->
  sortBy posts metric ≡ₚ posts
  /\ descending key (sortBy posts metric).
Proof.
  intros Hkey. split; [apply array_sort_perm|].
  unfold sortBy, array_sort.
  induction posts as [|x tl IH]; simpl; [exact I|].
  apply sort_insert_descending.
  - intros p Hp. apply Hkey.
    apply elem_of_cons in Hp as [->|Hp]; [left|right].
    pose proof (array_sort_perm (sort_compare metric) tl) as Hperm.
    unfold array_sort in Hperm. by rewrite <- Hperm.
  - apply IH. intros p Hp. apply Hkey. by right.
Qed.

(** X4. [sortBy] is stable: posts that have the same metric come out in
    the order they went in (the metric of every post being a number). *)
Theorem sortBy_stable (posts : list Post) (metric : string)
    (key : Post -> Z) (k : Z) :
  (forall p, p ∈ posts -> toNumber (metric_of metric p) = Int (key p)) ->
  List.filter (fun p => (key p =? k)%Z) (sortBy posts metric)
  = List.filter (fun p => (key p =? k)%Z) posts.
Proof.
  intros Hkey. unfold sortBy, array_sort.
  induction posts as [|x tl IH]; simpl; [reflexivity|].
  rewrite (sort_insert_stable metric key).
  - simpl. rewrite IH; [reflexivity|]. intros p Hp. apply Hkey. by right.
  - intros p Hp. apply Hkey.
    apply elem_of_cons in Hp as [->|Hp]; [left|right].
    pose proof (array_sort_perm (sort_compare metric) tl) as Hperm.
    unfold array_sort in Hperm. by rewrite <- Hperm.
Qed.

(** ** [filterEngagement] *)

Lemma filter_filter_and {A} (f g : A -> bool) (l : list A) :
  List.filter f (List.filter g l) = List.filter (fun x => g x && f x) l.
Proof.
  induction l as [|x tl IH]; simpl; [reflexivity|].
  destruct (g x); simpl; [destruct (f x)|]; by rewrite IH.
Qed.

(** X5. The two thresholds of [filterEngagement] act independently:
    filtering on upvotes and then on comments, or the other way round,
    gives what one call with both thresholds gives, and filtering the
    result again changes nothing. *)
Theorem filterEngagement_compose (posts : list Post)
    (mu mc : option number) :
  filterEngagement (filterEngagement posts (mkEngagement mu None))
    (mkEngagement None mc)
  = filterEngagement posts (mkEngagement mu mc)
  /\ filterEngagement (filterEngagement posts (mkEngagement None mc))
       (mkEngagement mu None)
     = filterEngagement posts (mkEngagement mu mc)
  /\ filterEngagement (filterEngagement posts (mkEngagement mu mc))
       (mkEngagement mu mc)
     = filterEngagement posts (mkEngagement mu mc).
Proof.
  unfold filterEngagement. rewrite !filter_filter_and.
  repeat split; apply filter_ext; intros p; simpl;
    destruct (below mu (upvotes p)), (below mc (num_comments p));
    reflexivity.
Qed.

Lemma below_false min v :
  below min v = false <->
  forall m u, min = Some (Int m) -> m <> 0%Z -> toNumber v = Int u ->
              (m <= u)%Z.
Proof.
  unfold below, truthy_num. split.
  - intros H m u -> Hm Hu. rewrite Hu in H. simpl in H.
    destruct (Z.eqb_spec m 0); [contradiction|]. simpl in H.
    apply Z.ltb_ge in H. exact H.
  - intros H. destruct min as [[|m]|]; try reflexivity. simpl.
    destruct (Z.eqb_spec m 0); [reflexivity|]. simpl.
    destruct (toNumber v) as [|u] eqn:Hu; [reflexivity|]. simpl.
    apply Z.ltb_ge. by eapply H.
Qed.

(** X6. A post is in the result of [filterEngagement] exactly when it is
    in the input and, for each threshold that is a non-zero number, its
    count is not a number below the threshold: a post whose count is not a
    number is kept, and so is every post under a threshold of 0 or NaN. *)
Theorem filterEngagement_thresholds (posts : list Post)
    (opts : EngagementOpts) (p : Post) :
  p ∈ filterEngagement posts opts <->
  p ∈ posts
  /\ (forall m u, minUpvotes opts = Some (Int m) -> m <> 0%Z ->
                  toNumber (upvotes p) = Int u -> (m <= u)%Z)
  /\ (forall m c, minComments opts = Some (Int m) -> m <> 0%Z ->
                  toNumber (num_comments p) = Int c -> (m <= c)%Z).
Proof.
  unfold filterEngagement.
  rewrite !list_elem_of_In, filter_In, <- !below_false.
  destruct (below (minUpvotes opts) (upvotes p)),
    (below (minComments opts) (num_comments p)); intuition congruence.
Qed.

(** ** Options on the command line *)

Lemma find_after_app flag pre rest :
  flag ∉ pre -> find_after flag (pre ++ rest) = find_after flag rest.
Proof.
  induction pre as [|a pre IH]; intros Hnot; simpl; [reflexivity|].
  destruct (String.eqb_spec a flag) as [->|Hne].
  - exfalso. apply Hnot. left.
  - apply IH. intros Hin. apply Hnot. by right.
Qed.

(** X7. [getOpt] reads the word that follows the first occurrence of the
    flag, whatever that word is and whatever comes later; a flag that is
    the last word, or that does not occur, gives no value. *)
Theorem getOpt_reads_first (pre post : list string) (name v : string) :
  ("--" +:+ name) ∉ pre ->
  getOpt (pre ++ ("--" +:+ name) :: v :: post) name = Some v
  /\ getOpt (pre ++ ["--" +:+ name]) name = None
  /\ getOpt pre name = None.
Proof.
  intros Hnot. unfold getOpt.
  rewrite !find_after_app by assumption. simpl.
  rewrite String.eqb_refl. repeat split.
  rewrite <- (app_nil_r pre). by rewrite find_after_app.
Qed.

(** ** What the mappers do with a malformed payload *)

Lemma post_data_total raw :
  nullish raw = false -> exists d, post_data raw = Ok d.
Proof.
  unfold post_data. destruct raw; simpl; try discriminate; eauto.
Qed.

Lemma parsePost_on_value raw :
  (nullish raw = true -> parsePost raw = Throw TypeError)
  /\ (nullish raw = false ->
      exists p, parsePost raw = Ok p
        /\ post_url p = "https://reddit.com" +:+ toString (permalink p)).
Proof.
  split.
  - destruct raw; simpl; try discriminate; reflexivity.
  - intros Hn. destruct (post_data_total _ Hn) as [d Hd].
    pose proof (post_data_not_nullish _ _ Hd) as Hdn.
    unfold parsePost. rewrite Hd.
    destruct d; try discriminate Hdn; simpl; eexists; split; reflexivity.
Qed.


Lemma parsePost_cases raw :
  parsePost raw = Throw TypeError \/ exists p, parsePost raw = Ok p.
Proof.
  destruct (parsePost_on_value raw) as [Hnull Hok].
  destruct (nullish raw) eqn:Hn; [left; auto|].
  right. destruct (Hok eq_refl) as (p & Hp & _). eauto.
Qed.



(** ** [parseComment] on the trees the API sends *)

Lemma is_t1_total c : nullish c = false -> exists b, is_t1 c = Ok b.
Proof.
  unfold is_t1. destruct c; simpl; try discriminate; eauto.
Qed.

Lemma filterR_is_t1_total cs :
  Forall (fun c => nullish c = false) cs ->
  exists kept, filterR is_t1 cs = Ok kept.
Proof.
  induction 1 as [|c cs Hc _ [kept IH]]; simpl; [eauto|].
  destruct (is_t1_total _ Hc) as [b ->]. simpl. rewrite IH. simpl. eauto.
Qed.

Lemma mapR_total {A B} (f : A -> result B) (l : list A) :
  (forall x, x ∈ l -> exists y, f x = Ok y) -> exists ys, mapR f l = Ok ys.
Proof.
  induction l as [|x tl IH]; intros Hf; simpl; [eauto|].
  destruct (Hf x) as [y ->]; [left|]. simpl.
  destruct IH as [ys ->]; [intros z Hz; apply Hf; by right|].
  simpl. eauto.
Qed.

Lemma parseComment_total_below h :
  forall raw, height raw < h -> comment_tree raw ->
  forall n, exists c, parseComment raw n = Ok c.
Proof.
  induction h as [|h IH]; intros raw Hh Htree n; [lia|].
  inversion Htree as [? d g Hd Hdn Hg Hfalse|? d cs Hd Hdn Hg Hcs Hkids];
    subst; destruct (commentBase_total raw n d Hd Hdn) as [base Hb];
    rewrite parseComment_eq, Hb; simpl.
  - rewrite (reply_nodes_guard _ _ _ Hd Hg), Hfalse. simpl. eauto.
  - destruct (filterR_is_t1_total cs Hcs) as [kept Hkept].
    assert (reply_nodes raw = Ok (Some kept)) as Hnodes.
    { rewrite (reply_nodes_guard _ _ _ Hd Hg). simpl.
      rewrite Hkept. reflexivity. }
    rewrite Hnodes. simpl.
    destruct (mapR_total (fun c => parseComment c (n + 1)) kept) as [rs ->];
      [|simpl; eauto].
    intros k Hk. apply IH.
    + pose proof (height_reply_nodes _ _ Hnodes k Hk). lia.
    + destruct (filterR_elem _ _ _ Hkept k Hk) as [Hin Ht].
      rewrite Forall_forall in Hkids. apply Hkids; [assumption|].
      by rewrite Ht.
Qed.

(** X10. On a comment node shaped as the API sends them, at any nesting
    depth, [parseComment] returns a record, and that record is a tree
    rooted at the depth it was given. *)
Theorem parseComment_total (raw : value) (n : nat) :
  comment_tree raw ->
  exists c, parseComment raw n = Ok c /\ nested_from n c.
Proof.
  intros Htree.
  destruct (parseComment_total_below (S (height raw)) raw
              (Nat.lt_succ_diag_r _) Htree n) as [c Hc].
  exists c. split; [assumption | by eapply parseComment_nested].
Qed.

Lemma getProp_throws v k e : getProp v k = Throw e -> e = TypeError.
Proof. destruct v; simpl; intros [=]; congruence. Qed.

Lemma getIndex_throws v i e : getIndex v i = Throw e -> e = TypeError.
Proof. destruct v; simpl; intros [=]; congruence. Qed.

(** X11. The response shapes [thread] does not accept, and one it does: an
    array with a single listing, or a first listing with no child, makes
    the unwrapping throw a [TypeError]; a second listing without children
    gives the post and no comments. *)
Theorem threadResult_shapes (l0 l1 d0 : value) :
  threadResult (VArr [l0]) = Throw TypeError
  /\ (getProp l0 "data" = Ok d0 -> getProp d0 "children" = Ok (VArr []) ->
      threadResult (VArr [l0; l1]) = Throw TypeError)
  /\ (forall first rest d1 ch p,
        getProp l0 "data" = Ok d0 ->
        getProp d0 "children" = Ok (VArr (first :: rest)) ->
        parsePost first = Ok p ->
        getProp l1 "data" = Ok d1 ->
        getPropOpt d1 "children" = Ok ch ->
        truthy ch = false ->
        threadResult (VArr [l0; l1]) = Ok (mkThread p [])).
Proof.
  unfold threadResult. simpl. repeat split.
  - destruct (getProp l0 "data") as [pl|e] eqn:H0; simpl;
      [|by apply getProp_throws in H0 as ->].
    destruct (getProp pl "children") as [plc|e] eqn:H1; simpl;
      [|by apply getProp_throws in H1 as ->].
    destruct (getIndex plc 0) as [first|e] eqn:H2; simpl;
      [|by apply getIndex_throws in H2 as ->].
    destruct (parsePost_cases first) as [->|[p ->]]; reflexivity.
  - intros H0 H1. rewrite H0. simpl. rewrite H1. reflexivity.
  - intros first rest d1 ch p H0 H1 Hp H2 Hch Hf.
    rewrite H0. simpl. rewrite H1. simpl. rewrite Hp. simpl.
    rewrite H2. simpl. rewrite Hch. simpl.
    unfold js_or. rewrite Hf. reflexivity.
Qed.

(** ** Failures of the token exchange *)

Lemma getCredentials_missing w :
  credentials_missing (env w) = true ->
  getCredentials w = (Throw missing_credentials_error, w).
Proof.
  unfold credentials_missing, getCredentials, truthy_str.
  unfold mbind, M_bind, gets, throw, mret, M_ret. simpl.
  destruct (REDDIT_CLIENT_ID (env w)) as [i|],
    (REDDIT_CLIENT_SECRET (env w)) as [s|],
    (REDDIT_USERNAME (env w)) as [u|],
    (REDDIT_PASSWORD (env w)) as [p|]; simpl; try reflexivity;
    try (intros; discriminate).
  intros H.
  destruct (String.eqb i ""), (String.eqb s ""), (String.eqb u ""),
    (String.eqb p ""); simpl in *; try reflexivity; discriminate.
Qed.

Lemma getToken_stale w :
  token_fresh w = false ->
  getToken w =
    (c ← getCredentials;
     issued ← gets now;
     response ← fetch;
     modify (record (AuthRequest issued (clientId c) (clientSecret c)
                       (username c) (password c)));;
     if negb (resp_ok response)
     then throw (Error ("OAuth2 authentication failed: "
                          +:+ resp_text response))
     else
       data ← response_json response;
       access_token ← lift (getProp data "access_token");
       modify (set_token access_token);;
       t' ← gets now;
       expires_in ← lift (getProp data "expires_in");
       modify (set_expiry
                 (num_add (Int t')
                    (num_mul (toNumber expires_in) (Int 1000))));;
       gets accessToken) w.
Proof.
  unfold token_fresh, getToken. intros Hf.
  unfold mbind at 1 2 3. unfold M_bind, gets. simpl in *.
  rewrite Hf. reflexivity.
Qed.

(** X12. The credentials are read only when a token has to be fetched:
    with one of the four variables unset or empty, a process whose cached
    token is still fresh gets that token, and one whose token is stale gets
    the "Missing Reddit credentials" error from [getToken] and from
    [apiGet], with no request sent and nothing changed. *)
Theorem getToken_without_credentials (w : world) (endpoint : string) :
  credentials_missing (env w) = true ->
  (token_fresh w = true -> getToken w = (Ok (accessToken w), w))
  /\ (token_fresh w = false ->
      getToken w = (Throw missing_credentials_error, w)
      /\ apiGet endpoint w = (Throw missing_credentials_error, w)).
Proof.
  intros Hmiss. split; [apply getToken_cached|].
  intros Hstale.
  assert (getToken w = (Throw missing_credentials_error, w)) as Hg.
  { rewrite (getToken_stale _ Hstale). unfold mbind at 1. unfold M_bind.
    by rewrite (getCredentials_missing _ Hmiss). }
  split; [assumption | by apply apiGet_token_throws].
Qed.

Lemma token_fresh_later w w' :
  accessToken w' = accessToken w -> tokenExpiry w' = tokenExpiry w ->
  (now w <= now w')%Z ->
  token_fresh w = false -> token_fresh w' = false.
Proof.
  unfold token_fresh. intros -> -> Hle H.
  destruct (truthy (accessToken w)); [|reflexivity]. simpl in *.
  destruct (tokenExpiry w) as [|e]; [reflexivity|]. simpl in *.
  apply Z.ltb_ge in H. apply Z.ltb_ge. lia.
Qed.

(** X13. When the token endpoint answers with a non-success status,
    [getToken] throws "OAuth2 authentication failed" with the body of the
    answer, after exactly one auth request, and leaves the cached token and
    its expiry as they were: the token is still stale, so the next call
    exchanges again. *)
Theorem getToken_failure_retries (w : world) (c : Credentials) :
  token_fresh w = false ->
  getCredentials w = (Ok c, w) ->
  resp_ok (net w (sent w)) = false ->
  exists w',
    getToken w
    = (Throw (Error ("OAuth2 authentication failed: "
                       +:+ resp_text (net w (sent w)))), w')
    /\ accessToken w' = accessToken w
    /\ tokenExpiry w' = tokenExpiry w
    /\ sent w' = S (sent w)
    /\ auth_calls (log w') = S (auth_calls (log w))
    /\ token_fresh w' = false.
Proof.
  intros Hstale Hc Hbad. rewrite (getToken_stale _ Hstale).
  unfold mbind at 1. unfold M_bind. rewrite Hc.
  unfold fetch, modify, gets, throw, mbind, M_bind, mret, M_ret. simpl.
  rewrite Hbad. simpl. eexists. split; [reflexivity|]. simpl.
  repeat split.
  eapply token_fresh_later; [| | |exact Hstale]; simpl; try reflexivity.
  pose proof (N2Z.is_nonneg (resp_latency (net w (sent w)))). lia.
Qed.

(** ** Requests sent by [apiGet] and by the operations *)

Lemma getToken_api_log w r w1 :
  getToken w = (r, w1) ->
  api_times (log w1) = api_times (log w)
  /\ api_endpoints (log w1) = api_endpoints (log w)
  /\ auth_calls (log w1) <= S (auth_calls (log w)).
Proof.
  intros H. apply getToken_effect in H as [_ [->|(t & i & s & u & p & ->)]];
    simpl; repeat split; lia.
Qed.

(** X14. One call of [apiGet] sends at most one auth request and at most
    one API request: none when the token cannot be had (the error of
    [getToken] is passed on), and otherwise exactly one, to the endpoint it
    was given, issued when the token is in hand. *)
Theorem apiGet_requests (endpoint : string) (w w' : world)
    (r : result value) :
  apiGet endpoint w = (r, w') ->
  auth_calls (log w') <= S (auth_calls (log w))
  /\ ((exists e, getToken w = (Throw e, w') /\ r = Throw e
                 /\ api_times (log w') = api_times (log w))
      \/ (exists tok w1,
            getToken w = (Ok tok, w1)
            /\ api_times (log w') = (api_times (log w) ++ [now w1])%list
            /\ api_endpoints (log w')
               = (api_endpoints (log w) ++ [endpoint])%list
            /\ sent w' = S (sent w1))).
Proof.
  intros Hapi. destruct (getToken w) as [[tok|e] w1] eqn:Hg.
  - destruct (getToken_api_log _ _ _ Hg) as (Ht & He & Ha).
    rewrite (apiGet_after_token _ _ _ _ Hg) in Hapi.
    destruct (resp_ok (net w1 (sent w1))); injection Hapi as <- <-; simpl;
      rewrite Ht, He; (split; [lia|]); right; exists tok, w1;
      repeat split.
  - destruct (getToken_api_log _ _ _ Hg) as (Ht & He & Ha).
    rewrite (apiGet_token_throws _ _ _ _ Hg) in Hapi.
    injection Hapi as <- <-. split; [lia|]. left. exists e.
    repeat split. assumption.
Qed.

Lemma apiGet_refused endpoint w :
  token_fresh w = true ->
  resp_ok (net w (sent w)) = false ->
  exists w',
    apiGet endpoint w
    = (Throw (Error ("Reddit API error: "
                       +:+ pretty (resp_status (net w (sent w)))
                       +:+ " " +:+ resp_text (net w (sent w)))), w')
    /\ sent w' = S (sent w).
Proof.
  intros Hf Hbad.
  rewrite (apiGet_after_token _ _ _ _ (getToken_cached _ Hf)).
  simpl. rewrite Hbad. eexists. split; reflexivity.
Qed.

(** X15. No operation swallows a refusal of the API: with a fresh token
    and a non-success answer to the next request, [search], [subreddit],
    [thread] and [profile] all throw "Reddit API error: <status> <body>";
    [profile] stops there, its second request is never sent. *)
Theorem api_error_surfaces (w : world) (query name sort sub pid u : string)
    (sopts : SearchOpts) (lopts : ListingOpts) (topts : ThreadOpts)
    (count : option number) :
  token_fresh w = true ->
  resp_ok (net w (sent w)) = false ->
  let e := Error ("Reddit API error: "
                    +:+ pretty (resp_status (net w (sent w)))
                    +:+ " " +:+ resp_text (net w (sent w))) in
  (search query sopts w).1 = Throw e
  /\ (subreddit name sort lopts w).1 = Throw e
  /\ (thread sub pid topts w).1 = Throw e
  /\ (profile u count w).1 = Throw e
  /\ sent (profile u count w).2 = S (sent w).
Proof.
  intros Hf Hbad. simpl.
  pose proof (fun ep => apiGet_refused ep w Hf Hbad) as Hapi.
  unfold search, subreddit, thread, profile. cbv zeta.
  repeat split;
    unfold mbind at 1; unfold M_bind;
    match goal with
    | |- context [apiGet ?ep w] => destruct (Hapi ep) as (w' & -> & Hs)
    end; simpl; try reflexivity; assumption.
Qed.

Lemma apiGet_Ok_inv endpoint w v w' :
  apiGet endpoint w = (Ok v, w') ->
  exists tok w1,
    getToken w = (Ok tok, w1)
    /\ api_times (log w') = (api_times (log w) ++ [now w1])%list
    /\ api_endpoints (log w') = (api_endpoints (log w) ++ [endpoint])%list
    /\ (now w1 + RATE_DELAY_MS <= now w')%Z
    /\ (now w <= now w1)%Z.
Proof.
  intros Hapi. destruct (getToken w) as [[tok|e] w1] eqn:Hg.
  - destruct (getToken_api_log _ _ _ Hg) as (Ht & He & _).
    destruct (getToken_effect _ _ _ Hg) as [Hle _].
    rewrite (apiGet_after_token _ _ _ _ Hg) in Hapi.
    pose proof (N2Z.is_nonneg (resp_latency (net w1 (sent w1)))) as Hlat.
    destruct (resp_ok (net w1 (sent w1))); [|discriminate].
    injection Hapi as _ <-. simpl. rewrite Ht, He.
    exists tok, w1. repeat split; try assumption. lia.
  - rewrite (apiGet_token_throws _ _ _ _ Hg) in Hapi. discriminate.
Qed.

(** X16. A [profile] call that returns has sent two API requests, first
    to the user's [about] endpoint and then to the user's [submitted]
    endpoint (with [limit] defaulting to 10), the second one at least
    600 ms after the first. *)
Theorem profile_two_requests (u : string) (count : option number)
    (w w' : world) (user : User) (posts : list Post) :
  profile u count w = (Ok (user, posts), w') ->
  exists t1 t2,
    api_times (log w') = (api_times (log w) ++ [t1; t2])%list
    /\ (t1 + RATE_DELAY_MS <= t2)%Z
    /\ api_endpoints (log w')
       = (api_endpoints (log w)
          ++ ["/user/" +:+ u +:+ "/about";
              "/user/" +:+ u +:+ "/submitted?"
                +:+ params_toString
                      [("limit", num_toString (opt_or count 10));
                       ("raw_json", "1")]])%list.
Proof.
  unfold profile. cbv zeta. intros H.
  apply bindM_Ok_inv in H as (userData & wa & Ha & H).
  apply bindM_Ok_inv in H as (ud & wb & Hb & H).
  apply lift_inv in Hb as [_ ->].
  apply bindM_Ok_inv in H as (usr & wc & Hc & H).
  apply lift_inv in Hc as [_ ->].
  apply bindM_Ok_inv in H as (postsData & wd & Hd & H).
  apply bindM_Ok_inv in H as (ps & we & He & H).
  apply lift_inv in He as [_ ->]. injection H as _ _ <-.
  apply apiGet_Ok_inv in Ha as (tok1 & w1 & _ & Ht1 & He1 & Hs1 & _).
  apply apiGet_Ok_inv in Hd as (tok2 & w2 & _ & Ht2 & He2 & _ & Hle2).
  exists (now w1), (now w2).
  rewrite Ht2, Ht1, He2, He1, <- !app_assoc. simpl.
  repeat split. lia.
Qed.

Lemma requests_at_most_ret {A} (a : A) : requests_at_most 0 (mret a).
Proof. intros w r w' [= <- <-]. lia. Qed.

Lemma requests_at_most_lift {A} (r : result A) :
  requests_at_most 0 (lift r).
Proof. intros w r' w' [= <- <-]. lia. Qed.

Lemma requests_at_most_bind {A B} k1 k2 (m : M A) (f : A -> M B) :
  requests_at_most k1 m -> (forall a, requests_at_most k2 (f a)) ->
  requests_at_most (k1 + k2) (m ≫= f).
Proof.
  intros Hm Hf w r w' H. unfold mbind, M_bind in H.
  destruct (m w) as [[a|e] w1] eqn:Hmw.
  - apply Hm in Hmw. apply Hf in H. lia.
  - injection H as <- <-. apply Hm in Hmw. lia.
Qed.

Lemma apiGet_requests_at_most endpoint :
  requests_at_most 1 (apiGet endpoint).
Proof.
  intros w r w' Hapi. destruct (getToken w) as [[tok|e] w1] eqn:Hg;
    destruct (getToken_api_log _ _ _ Hg) as (Ht & _ & _).
  - rewrite (apiGet_after_token _ _ _ _ Hg) in Hapi.
    destruct (resp_ok (net w1 (sent w1))); injection Hapi as <- <-; simpl;
      rewrite length_app, Ht; simpl; lia.
  - rewrite (apiGet_token_throws _ _ _ _ Hg) in Hapi.
    injection Hapi as <- <-. rewrite Ht. lia.
Qed.

Lemma profile_requests_at_most u count :
  requests_at_most 2 (profile u count).
Proof.
  unfold profile. cbv zeta.
  change 2 with (1 + (0 + (0 + (1 + (0 + 0))))).
  repeat first
    [ apply apiGet_requests_at_most
    | apply requests_at_most_lift
    | apply requests_at_most_ret
    | apply requests_at_most_bind; [|intros ?] ].
Qed.

(** X17. The watchlist check never fails, whatever the network answers
    and whatever the payloads hold: every failure of a [profile] call is
    caught and the loop goes on to the next user. It sends at most two API
    requests per user. *)
Theorem watchlistCheck_total (users : list string) (w : world) :
  exists w',
    watchlistCheck users w = (Ok tt, w')
    /\ length (api_times (log w'))
       <= length (api_times (log w)) + 2 * length users.
Proof.
  revert w. induction users as [|u rest IH]; intros w; simpl.
  - exists w. split; [reflexivity | lia].
  - unfold mbind at 1. unfold M_bind, try_catch.
    unfold mbind at 1. unfold M_bind.
    destruct (profile u (Some (Int 3)) w) as [[x|e] w1] eqn:Hp;
      apply profile_requests_at_most in Hp; simpl;
      destruct (IH w1) as (w' & -> & Hlen); exists w';
      (split; [reflexivity | lia]).
Qed.

(** ** Pacing, for every operation and command *)

Lemma keeps_pace_gets {A} (f : world -> A) : keeps_pace (gets f).
Proof. intros w r w' [= <- <-] Hp. exact Hp. Qed.

Lemma keeps_pace_throw {A} (e : exn) : keeps_pace (throw e : M A).
Proof. intros w r w' [= <- <-] Hp. exact Hp. Qed.

Lemma keeps_pace_cache_set key v : keeps_pace (cache_set key v).
Proof.
  intros w r w' H Hp. unfold cache_set, mbind, M_bind, gets, modify in H.
  injection H as <- <-. exact Hp.
Qed.

Lemma keeps_pace_cache_get key ttl : keeps_pace (cache_get key ttl).
Proof.
  intros w r w' H Hp.
  unfold cache_get, mbind, M_bind, gets, mret, M_ret in H.
  injection H as <- <-. exact Hp.
Qed.

Ltac pace :=
  repeat first
    [ apply apiGet_keeps_pace
    | apply thread_keeps_pace
    | apply profile_keeps_pace
    | apply watchlistCheck_keeps_pace
    | apply keeps_pace_cache_get
    | apply keeps_pace_cache_set
    | apply keeps_pace_lift
    | apply keeps_pace_ret
    | apply keeps_pace_throw
    | apply keeps_pace_gets
    | apply keeps_pace_bind; [|intros ?] ].

Lemma search_keeps_pace query opts : keeps_pace (search query opts).
Proof. unfold search. cbv zeta. pace. Qed.

Lemma subreddit_keeps_pace name sort opts :
  keeps_pace (subreddit name sort opts).
Proof. unfold subreddit. cbv zeta. pace. Qed.

(** X18. Every operation of the wrapper and every command that reaches
    it keeps the log paced: however they chain their requests, and whether
    they return or throw, a request that follows one answered with success
    is issued at least 600 ms after it. *)
Theorem operations_keep_pace (query name sort sub pid u : string)
    (sopts : SearchOpts) (lopts : ListingOpts) (topts : ThreadOpts)
    (count : option number) (args users : list string)
    (file : option (list WatchUser)) :
  keeps_pace (search query sopts)
  /\ keeps_pace (subreddit name sort lopts)
  /\ keeps_pace (thread sub pid topts)
  /\ keeps_pace (profile u count)
  /\ keeps_pace (watchlistCheck users)
  /\ keeps_pace (cmdSearch args)
  /\ keeps_pace (cmdThread args)
  /\ keeps_pace (cmdWatchlist args file).
Proof.
  split; [apply search_keeps_pace|]. split; [apply subreddit_keeps_pace|].
  split; [apply thread_keeps_pace|]. split; [apply profile_keeps_pace|].
  split; [apply watchlistCheck_keeps_pace|]. repeat split.
  - unfold cmdSearch. destruct (nth_error args 1) as [q|]; [|pace].
    destruct (String.eqb q ""); [pace|]. cbv zeta.
    apply keeps_pace_bind; [|intros [ps fc]; pace].
    unfold cmdSearch_load. cbv zeta.
    apply keeps_pace_bind; [pace|]. intros [ps|]; [pace|].
    apply keeps_pace_bind; [apply search_keeps_pace|]. intros ?. pace.
  - unfold cmdThread. cbv zeta.
    destruct (negb (truthy_str (nth_error args 1))); [pace|].
    destruct (negb (truthy_str (getOpt args "subreddit"))); pace.
  - unfold cmdWatchlist. cbv zeta.
    repeat match goal with
           | |- keeps_pace (if ?b then _ else _) => destruct b
           end; pace.
Qed.

(** ** [cmdSearch] and the cache *)

(** X19. When the cache answers the lookup of [cmdSearch] with posts, the
    command sends no request and changes nothing: it reports the cached
    posts, filtered by [--min-upvotes] after they were read, and flags them
    as cached. *)
Theorem cmdSearch_hit (args : list string) (query : string)
    (posts : list Post) (w : world) :
  nth_error args 1 = Some query ->
  query <> "" ->
  cache_lookup (cache w)
    ("search:" +:+ query +:+ ":" +:+ str_or (getOpt args "subreddit") "all"
       +:+ ":" +:+ str_or (getOpt args "sort") "relevance"
       +:+ ":" +:+ str_or (getOpt args "time") "week"
       +:+ ":" +:+ num_toString
             (parseInt (str_or (getOpt args "limit")
                          (if getFlag args "quick" then "10" else "15"))))
    (if getFlag args "quick" then 60 * 60 * 1000 else 15 * 60 * 1000)%Z
    (now w) = Some posts ->
  cmdSearch args w
  = (Ok (if truthy_opt (cmdSearch_minUpvotes args)
         then filterEngagement posts
                (mkEngagement (cmdSearch_minUpvotes args) None)
         else posts, true), w).
Proof.
  intros Hq Hne Hhit. unfold cmdSearch. rewrite Hq.
  destruct (String.eqb_spec query ""); [contradiction|]. cbv zeta.
  unfold mbind at 1. unfold M_bind.
  rewrite (cmdSearch_load_hit _ _ _ _ Hhit). reflexivity.
Qed.

(** ** [timeAgo] *)

Lemma div_lt_iff a b q :
  (0 < b)%Z -> (a / b <? q)%Z = (a <? b * q)%Z.
Proof.
  intros Hb.
  destruct (Z.ltb_spec (a / b) q) as [H|H], (Z.ltb_spec a (b * q)) as [H'|H'];
    try reflexivity; exfalso.
  - pose proof (Z.div_le_lower_bound a b q Hb H'). lia.
  - pose proof (Z.div_lt_upper_bound a b q Hb H'). lia.
Qed.

(** X20. [timeAgo] of a timestamp of [s] seconds, read [age] milliseconds
    later: under an hour it prints the whole minutes of [age] (a negative
    number of them for a timestamp in the future), under a day the whole
    hours, and from then on the whole days; a timestamp that is not a
    number prints as "NaNd". The clock is only read. *)
Theorem timeAgo_units (unixTime : value) (w : world) :
  (toNumber unixTime = NaN -> timeAgo unixTime w = (Ok "NaNd", w))
  /\ (forall s, toNumber unixTime = Int s ->
        let age := (now w - s * 1000)%Z in
        timeAgo unixTime w
        = (Ok (if (age <? 3600000)%Z
               then pretty (age / 60000)%Z +:+ "m"
               else if (age <? 86400000)%Z
                    then pretty (age / 3600000)%Z +:+ "h"
                    else pretty (age / 86400000)%Z +:+ "d"), w)).
Proof.
  unfold timeAgo, mbind, M_bind, gets. split.
  - intros ->. reflexivity.
  - intros s ->. cbv zeta.
    cbn [num_mul num_sub num_floor_div num_lt].
    rewrite (div_lt_iff _ 60000 60) by lia.
    change (60000 * 60)%Z with 3600000%Z.
    destruct (now w - s * 1000 <? 3600000)%Z; [reflexivity|].
    rewrite (div_lt_iff _ 60 24) by lia.
    rewrite (div_lt_iff _ 60000 (60 * 24)) by lia.
    change (60000 * (60 * 24))%Z with 86400000%Z.
    rewrite !Z.div_div by lia.
    change (60000 * 60)%Z with 3600000%Z.
    change (3600000 * 24)%Z with 86400000%Z.
    destruct (now w - s * 1000 <? 86400000)%Z; reflexivity.
Qed.

(** ** The watchlist *)

Lemma truthy_str_Some u : u <> "" -> truthy_str (Some u) = true.
Proof. intros H. simpl. by destruct (String.eqb_spec u ""). Qed.

Lemma str_or_Some u d : u <> "" -> str_or (Some u) d = u.
Proof. intros H. simpl. by destruct (String.eqb_spec u ""). Qed.

Lemma cmdWatchlist_add cmd u words file w :
  u <> "" ->
  cmdWatchlist (cmd :: "add" :: u :: words) file w
  = (Ok (if on_watchlist u (loadWatchlist file) then file
         else Some (loadWatchlist file
                    ++ [mkWatchUser u (Some (String.concat " " words))
                          (toISOString (now w))])%list), w).
Proof.
  intros Hu. unfold cmdWatchlist. cbv zeta.
  change (nth_error (cmd :: "add" :: u :: words) 1) with (Some "add").
  change (nth_error (cmd :: "add" :: u :: words) 2) with (Some u).
  change (drop 3 (cmd :: "add" :: u :: words)) with words.
  rewrite (truthy_str_Some u Hu), (str_or_Some u _ Hu). simpl.
  by destruct (on_watchlist u (loadWatchlist file)).
Qed.

Lemma cmdWatchlist_remove cmd u words file w :
  u <> "" ->
  cmdWatchlist (cmd :: "remove" :: u :: words) file w
  = (Ok (Some (List.filter
                 (fun x => negb (String.eqb (wu_username x) u))
                 (loadWatchlist file))), w).
Proof.
  intros Hu. unfold cmdWatchlist. cbv zeta.
  change (nth_error (cmd :: "remove" :: u :: words) 1) with (Some "remove").
  change (nth_error (cmd :: "remove" :: u :: words) 2) with (Some u).
  rewrite (truthy_str_Some u Hu), (str_or_Some u _ Hu). reflexivity.
Qed.

Lemma on_watchlist_app u l1 l2 :
  on_watchlist u (l1 ++ l2) = on_watchlist u l1 || on_watchlist u l2.
Proof. apply existsb_app. Qed.

Lemma remove_absent u users :
  on_watchlist u users = false ->
  List.filter (fun x => negb (String.eqb (wu_username x) u)) users = users.
Proof.
  induction users as [|x tl IH]; simpl; [reflexivity|].
  intros H. apply orb_false_iff in H as [Hx Htl].
  rewrite Hx. simpl. by rewrite IH.
Qed.

(** X21. Adding a user who is not on the watchlist puts the user at its
    end; adding the same name again, with any note, changes nothing; and
    removing the name gives back the users that were there before the
    add. *)
Theorem watchlist_add_remove (cmd u : string) (words words' : list string)
    (file : option (list WatchUser)) (w : world) :
  u <> "" ->
  on_watchlist u (loadWatchlist file) = false ->
  exists entry,
    wu_username entry = u
    /\ cmdWatchlist (cmd :: "add" :: u :: words) file w
       = (Ok (Some (loadWatchlist file ++ [entry])%list), w)
    /\ cmdWatchlist (cmd :: "add" :: u :: words')
         (Some (loadWatchlist file ++ [entry])%list) w
       = (Ok (Some (loadWatchlist file ++ [entry])%list), w)
    /\ cmdWatchlist (cmd :: "remove" :: u :: words')
         (Some (loadWatchlist file ++ [entry])%list) w
       = (Ok (Some (loadWatchlist file)), w).
Proof.
  intros Hu Hfresh.
  exists (mkWatchUser u (Some (String.concat " " words))
            (toISOString (now w))).
  split; [reflexivity|]. split.
  { rewrite (cmdWatchlist_add _ _ _ _ _ Hu). by rewrite Hfresh. }
  split.
  - rewrite (cmdWatchlist_add _ _ _ _ _ Hu). simpl.
    rewrite on_watchlist_app. simpl. rewrite String.eqb_refl.
    by rewrite orb_true_r.
  - rewrite (cmdWatchlist_remove _ _ _ _ _ Hu). simpl.
    rewrite List.filter_app. simpl. rewrite String.eqb_refl. simpl.
    rewrite app_nil_r. by rewrite remove_absent.
Qed.

Lemma on_watchlist_elem u users :
  on_watchlist u users = true <-> u ∈ wu_username <$> users.
Proof.
  induction users as [|x tl IH].
  - split; [discriminate | intros H; inversion H].
  - change (on_watchlist u (x :: tl))
      with (String.eqb (wu_username x) u || on_watchlist u tl).
    rewrite fmap_cons, orb_true_iff, elem_of_cons, IH, String.eqb_eq.
    intuition congruence.
Qed.

Lemma NoDup_names_filter (f : WatchUser -> bool) users :
  NoDup (wu_username <$> users) ->
  NoDup (wu_username <$> List.filter f users).
Proof.
  induction users as [|x tl IH]; [trivial|].
  rewrite fmap_cons, NoDup_cons. intros [Hx Htl].
  cbn [List.filter]. destruct (f x); [|by apply IH].
  rewrite fmap_cons. apply NoDup_cons. split; [|by apply IH].
  intros Hin. apply Hx.
  apply list_elem_of_fmap in Hin as (y & Hy & Hin).
  apply list_elem_of_fmap. exists y. split; [assumption|].
  apply list_elem_of_In. apply list_elem_of_In in Hin.
  by apply filter_In in Hin as [? _].
Qed.

(** X22. The names on the watchlist stay pairwise distinct under every
    action of [cmdWatchlist]; and after [remove] the name is no longer on
    the list, while every other name is on it exactly if it was before. *)
Theorem watchlist_names_unique (args : list string)
    (file file' : option (list WatchUser)) (w w' : world) :
  NoDup (wu_username <$> loadWatchlist file) ->
  cmdWatchlist args file w = (Ok file', w') ->
  NoDup (wu_username <$> loadWatchlist file')
  /\ (forall cmd u words, args = cmd :: "remove" :: u :: words -> u <> "" ->
        on_watchlist u (loadWatchlist file') = false
        /\ forall v, v <> u ->
             on_watchlist v (loadWatchlist file')
             = on_watchlist v (loadWatchlist file)).
Proof.
  intros Hnd Hrun. split.
  - revert Hrun. unfold cmdWatchlist. cbv zeta.
    repeat match goal with
           | |- (if ?b then _ else _) _ = _ -> _ => destruct b eqn:?
           end;
      try (intros [= <- <-]; assumption); try discriminate.
    + unfold mbind, M_bind, gets, mret, M_ret. intros [= <- <-]. simpl.
      rewrite fmap_app. apply NoDup_app. split; [assumption|]. split.
      * intros x Hx Hin. simpl in Hin.
        apply list_elem_of_singleton in Hin as ->.
        apply on_watchlist_elem in Hx. simpl in *. congruence.
      * simpl. apply NoDup_singleton.
    + intros [= <- <-]. simpl. by apply NoDup_names_filter.
    + intros H. apply bindM_Ok_inv in H as (x & w1 & _ & [= <- <-]).
      assumption.
  - intros cmd u words -> Hu.
    rewrite (cmdWatchlist_remove _ _ _ _ _ Hu) in Hrun.
    injection Hrun as <- <-. simpl. split.
    + induction (loadWatchlist file) as [|x tl IH]; simpl; [reflexivity|].
      destruct (String.eqb_spec (wu_username x) u) as [Heq|Hne]; simpl.
      * apply IH. rewrite fmap_cons in Hnd.
        by apply NoDup_cons in Hnd as [_ ?].
      * destruct (String.eqb_spec (wu_username x) u); [contradiction|].
        apply IH. rewrite fmap_cons in Hnd.
        by apply NoDup_cons in Hnd as [_ ?].
    + intros v Hv. clear Hnd.
      induction (loadWatchlist file) as [|x tl IH]; simpl; [reflexivity|].
      destruct (String.eqb_spec (wu_username x) u) as [Heq|Hne]; simpl.
      * destruct (String.eqb_spec (wu_username x) v); [congruence|].
        exact IH.
      * by rewrite IH.
Qed.

(** ** Commands called with too little *)

(** X23. The commands check their arguments before anything else: a
    [search] or [thread] without its first argument, a [thread] without
    [--subreddit], a watchlist [add] or [remove] without a name and an
    unknown watchlist action all exit with code 1, having sent nothing and
    changed nothing. *)
Theorem usage_errors (args : list string) (file : option (list WatchUser))
    (w : world) :
  (truthy_str (nth_error args 1) = false ->
     cmdSearch args w = (Throw (Exit 1), w)
     /\ cmdThread args w = (Throw (Exit 1), w))
  /\ (truthy_str (getOpt args "subreddit") = false ->
      cmdThread args w = (Throw (Exit 1), w))
  /\ (forall action,
        nth_error args 1 = Some action ->
        action = "add" \/ action = "remove" ->
        truthy_str (nth_error args 2) = false ->
        cmdWatchlist args file w = (Throw (Exit 1), w))
  /\ (forall action,
        nth_error args 1 = Some action ->
        action <> "" -> action <> "list" -> action <> "add" ->
        action <> "remove" -> action <> "check" ->
        cmdWatchlist args file w = (Throw (Exit 1), w)).
Proof.
  repeat split.
  - unfold cmdSearch. destruct (nth_error args 1) as [q|]; [|reflexivity].
    simpl in H. destruct (String.eqb q ""); [reflexivity | discriminate].
  - unfold cmdThread. cbv zeta. by rewrite H.
  - intros H. unfold cmdThread. cbv zeta. rewrite H.
    by destruct (negb (truthy_str (nth_error args 1))).
  - intros action Ha Hact Hname. unfold cmdWatchlist. cbv zeta.
    rewrite Ha, Hname. by destruct Hact as [-> | ->].
  - intros action Ha H0 H1 H2 H3 H4. unfold cmdWatchlist. cbv zeta.
    rewrite Ha. rewrite (truthy_str_Some _ H0), (str_or_Some _ _ H0).
    simpl.
    destruct (String.eqb_spec action "list"); [contradiction|].
    destruct (String.eqb_spec action "add"); [contradiction|].
    destruct (String.eqb_spec action "remove"); [contradiction|].
    destruct (String.eqb_spec action "check"); [contradiction|].
    reflexivity.
Qed.

(** ** Defaults and a token without expiry *)

(** A limit of 0 or NaN counts as no limit given: [search] and
    [subreddit] then ask for 25 posts and [profile] for 10, exactly as
    when the option is left out, and [thread] leaves [limit] out of the
    request. *)
Lemma zero_limit_is_default (query name sort sub pid u : string)
    (s so t a : option string) (d : option number) :
  search query (mkSearchOpts s so t (Some (Int 0)) a)
  = search query (mkSearchOpts s so t None a)
  /\ search query (mkSearchOpts s so t (Some NaN) a)
     = search query (mkSearchOpts s so t None a)
  /\ subreddit name sort (mkListingOpts t (Some (Int 0)) a)
     = subreddit name sort (mkListingOpts t None a)
  /\ subreddit name sort (mkListingOpts t (Some NaN) a)
     = subreddit name sort (mkListingOpts t None a)
  /\ profile u (Some (Int 0)) = profile u None
  /\ profile u (Some NaN) = profile u None
  /\ thread sub pid (mkThreadOpts d (Some (Int 0)) so)
     = thread sub pid (mkThreadOpts d None so)
  /\ thread sub pid (mkThreadOpts d (Some NaN) so)
     = thread sub pid (mkThreadOpts d None so).
Proof. repeat split. Qed.

(** X24. A token answer whose [expires_in] does not convert to a number
    is cached with expiry NaN, and a token with that expiry is never
    fresh: every later call of [getToken] exchanges again. *)
Theorem token_without_expiry (w : world) (c : Credentials)
    (data tok ei : value) :
  token_fresh w = false ->
  getCredentials w = (Ok c, w) ->
  resp_ok (net w (sent w)) = true ->
  resp_json (net w (sent w)) = Some data ->
  getProp data "access_token" = Ok tok ->
  getProp data "expires_in" = Ok ei ->
  toNumber ei = NaN ->
  exists w1,
    getToken w = (Ok tok, w1)
    /\ accessToken w1 = tok
    /\ tokenExpiry w1 = NaN
    /\ forall w2, tokenExpiry w2 = tokenExpiry w1 -> token_fresh w2 = false.
Proof.
  intros Hstale Hc Hok Hjson Htok Hei Hnan.
  eexists. split; [by eapply getToken_exchange|]. simpl.
  rewrite Hnan. repeat split.
  intros w2 H2. unfold token_fresh. simpl in H2. rewrite H2. simpl.
  apply andb_false_r.
Qed.

End Platform.

(** * The definitions at work *)

Example parseInt_zero : parseInt "0" = Int 0.
Proof. reflexivity. Qed.

Example parseInt_prefix : parseInt "  42px" = Int 42.
Proof. reflexivity. Qed.

Example parseInt_negative_hex :
  parseInt "-7" = Int (-7) /\ parseInt "0x1F" = Int 31.
Proof. split; reflexivity. Qed.

Example parseInt_no_digit : parseInt "many" = NaN.
Proof. reflexivity. Qed.

Example toString_array :
  toString (VArr [VNum (Int 1); VNull; VStr "a"]) = "1,,a".
Proof. reflexivity. Qed.

Example getOpt_last_flag :
  getOpt ["search"; "rust"; "--limit"] "limit" = None
  /\ getOpt ["search"; "rust"; "--limit"; "5"] "limit" = Some "5".
Proof. split; reflexivity. Qed.


(** ** Runs of the theorems on the samples *)

Lemma parsePost_defaults_witness :
  post_data bare_post = Ok bare_post_data
  /\ exists p, parsePost bare_post = Ok p
       /\ author p = VStr "[deleted]"
       /\ upvotes p = VNum (Int 0)
       /\ num_comments p = VNum (Int 0)
       /\ over_18 p = VBool false.
Proof.
  split; [reflexivity|].
  destruct (parsePost_defaults bare_post bare_post_data eq_refl)
    as (p & Hp & _ & _ & Ha & Hu & Hn & _ & Ho).
  exists p.
  split; [exact Hp|]. split; [apply Ha; reflexivity|].
  split; [apply Hu; reflexivity|].
  split; [apply Hn; reflexivity | apply Ho; reflexivity].
Defined.

Lemma parsePost_dual_shape_witness :
  lookup_prop "data" bare_post_wrapper = VObj bare_post_props
  /\ truthy (lookup_prop "data" bare_post_props) = false
  /\ parsePost bare_post = parsePost bare_post_data
  /\ exists p, parsePost bare_post_data = Ok p
       /\ post_url p = "https://reddit.com/r/test/comments/abc/hello/".
Proof.
  split; [reflexivity|]. split; [reflexivity|].
  exact (parsePost_dual_shape bare_post_wrapper bare_post_props
           eq_refl eq_refl).
Defined.

(** A data object with a [data] property of its own is not mapped the same
    way wrapped and unwrapped: unwrapped, [parsePost] reads the inner
    object. *)
Lemma parsePost_dual_shape_counterexample :
  parsePost (VObj [("kind", VStr "t3"); ("data", nested_data_post)])
  <> parsePost nested_data_post
  /\ (exists p, parsePost (VObj [("kind", VStr "t3");
                                 ("data", nested_data_post)]) = Ok p
                /\ post_id p = VStr "outer")
  /\ (exists p, parsePost nested_data_post = Ok p
                /\ post_id p = VStr "inner").
Proof.
  split; [vm_compute; discriminate|].
  split; eexists; split; reflexivity.
Qed.

(** A comment whose replies listing holds only a placeholder gets a
    [replies] field, holding the empty list. *)
Lemma parseComment_replies_field_counterexample :
  reply_nodes only_more_node = Ok (Some [])
  /\ exists c, parseComment only_more_node 0 = Ok c
       /\ replies c = Some []
       /\ replies c <> None.
Proof.
  split; [reflexivity|]. eexists. split; [reflexivity|].
  split; [reflexivity | discriminate].
Qed.

Lemma parseComment_replies_field_witness :
  (exists base,
      commentBase leaf_node 0 = Ok base
      /\ replies_guard leaf_data = Ok (VStr "")
      /\ parseComment leaf_node 0 = Ok base
      /\ replies base = None)
  /\ (exists base,
        commentBase only_more_node 0 = Ok base
        /\ replies_guard only_more_data = Ok (VArr [more_node])
        /\ parseComment only_more_node 0 = Ok (with_replies base [])
        /\ replies (with_replies base []) = Some []).
Proof.
  split.
  - eexists. split; [reflexivity|]. split; [reflexivity|].
    exact (proj1 (parseComment_replies_field leaf_node leaf_data (VStr "")
                    0 _ eq_refl eq_refl eq_refl) eq_refl).
  - eexists. split; [reflexivity|]. split; [reflexivity|].
    exact (proj2 (proj2 (parseComment_replies_field only_more_node
                           only_more_data (VArr [more_node]) 0 _
                           eq_refl eq_refl eq_refl))
             [more_node] eq_refl eq_refl).
Defined.

Lemma parseComment_filters_placeholders_witness :
  getProp nested3 "data" = Ok nested3_data
  /\ replies_guard nested3_data = Ok (VArr [only_more_node])
  /\ exists c, parseComment nested3 0 = Ok c
       /\ all_depths c = [0; 1]
       /\ exists base kept rs,
            commentBase nested3 0 = Ok base
            /\ filterR is_t1 [only_more_node] = Ok kept
            /\ kept = List.filter (fun k => holds (is_t1 k)) [only_more_node]
            /\ Forall (fun k => is_t1 k = Ok true) kept
            /\ Forall2 (fun k r => parseComment k (0 + 1) = Ok r) kept rs
            /\ c = with_replies base rs.
Proof.
  split; [reflexivity|]. split; [reflexivity|].
  eexists. split; [reflexivity|]. split; [reflexivity|].
  exact (proj1 (parseComment_filters_placeholders nested3 nested3_data
                  [only_more_node] 0 _ eq_refl eq_refl) eq_refl).
Defined.

Lemma thread_depths_witness :
  exists r w',
    thread no_numerals no_escapes "test" "abc" default_thread_opts
      serving_world = (Ok r, w')
    /\ map all_depths (thread_comments r) = [[0; 1]; [0]]
    /\ Forall (fun c => depth c = 0 /\ nested_from 0 c) (thread_comments r).
Proof.
  eexists _, _. split; [reflexivity|]. split; [reflexivity|].
  exact (thread_depths no_numerals no_escapes "test" "abc"
           default_thread_opts serving_world _ _ eq_refl).
Defined.

Lemma thread_unwrap_witness :
  exists r w',
    thread no_numerals no_escapes "test" "abc" default_thread_opts
      serving_world = (Ok r, w')
    /\ parsePost bare_post = Ok (thread_post r)
    /\ length (thread_comments r) = 2
    /\ map depth (thread_comments r) = [0; 0]
    /\ exists kept,
         parsePost bare_post = Ok (thread_post r)
         /\ filterR is_t1 [nested3; leaf_node; more_node] = Ok kept
         /\ kept = List.filter (fun k => holds (is_t1 k))
                     [nested3; leaf_node; more_node]
         /\ Forall (fun k => is_t1 k = Ok true) kept
         /\ Forall2 (fun k c => parseComment k 0 = Ok c /\ depth c = 0)
              kept (thread_comments r).
Proof.
  eexists _, _. split; [reflexivity|]. split; [reflexivity|].
  split; [reflexivity|]. split; [reflexivity|].
  exact (proj1 (thread_unwrap no_numerals no_escapes "test" "abc"
                  default_thread_opts serving_world _
                  (listing [bare_post])
                  (listing [nested3; leaf_node; more_node])
                  _ _ bare_post [] [nested3; leaf_node; more_node] _
                  eq_refl eq_refl eq_refl eq_refl eq_refl) eq_refl).
Defined.

Lemma getToken_reuse_witness :
  token_fresh fresh_world = false
  /\ exists w1,
      getToken no_numerals fresh_world = (Ok (VStr "abc123"), w1)
      /\ accessToken w1 = VStr "abc123"
      /\ tokenExpiry w1 = Int (now w1 + 3600 * 1000)
      /\ auth_calls (log w1) = 1
      /\ sent w1 = 1
      /\ getToken no_numerals (elapse 1000 w1)
         = (Ok (VStr "abc123"), elapse 1000 w1)
      /\ auth_calls (log (elapse 1000 w1)) = 1.
Proof.
  split; [reflexivity|].
  exact (proj2 (getToken_reuse no_numerals fresh_world sample_credentials
                  token_body (VStr "abc123") 3600 1000
                  eq_refl eq_refl eq_refl eq_refl eq_refl eq_refl eq_refl
                  ltac:(lia))).
Defined.

Lemma apiGet_paces_witness :
  exists r w',
    apiGet no_numerals "/user/alice/about" serving_world = (r, w')
    /\ paced (now w') (log w')
    /\ log w' = [Slept 1700000000120 600;
                 ApiRequest 1700000000000 "/user/alice/about"
                   "Bearer abc123" true]
    /\ now w' = 1700000000720%Z.
Proof.
  eexists _, _. split; [reflexivity|].
  destruct (apiGet_paces no_numerals "/user/alice/about" serving_world
              serving_world _ (VStr "abc123") _ eq_refl eq_refl I)
    as (Hp & Hok & _).
  split; [exact Hp|]. destruct (Hok eq_refl) as (Hlog & Hnow & _).
  split; [exact Hlog | exact Hnow].
Defined.

(** Two users on the watchlist, an API that answers 404 within 50 ms: the
    second request leaves 50 ms after the first, and nothing slept in
    between. *)
Lemma apiGet_paces_counterexample :
  let w' := (watchlistCheck no_numerals no_escapes ["alice"; "bob"]
               failing_world).2 in
  log w' = [ApiRequest 1700000000050 "/user/bob/about" "Bearer abc123" false;
            ApiRequest 1700000000000 "/user/alice/about" "Bearer abc123"
              false]
  /\ api_times (log w') = [1700000000000; 1700000000050]%Z
  /\ spaced RATE_DELAY_MS (api_times (log w')) = false.
Proof. vm_compute. repeat split. Qed.

Lemma cache_ttl_witness :
  cache_lookup (cache_store ∅ "search:rust:all:relevance:week:15"
                  [quiet_post] 5000)
    "search:rust:all:relevance:week:15" 900000 (5000 + 800000)
  = Some [quiet_post]
  /\ cache_lookup (cache_store ∅ "search:rust:all:relevance:week:15"
                     [quiet_post] 5000)
       "search:rust:all:relevance:week:15" 900000 (5000 + 1000000)
     = None
  /\ cache_lookup ∅ "search:rust:all:relevance:week:15" 900000 5000 = None.
Proof.
  destruct (cache_ttl ∅ "search:rust:all:relevance:week:15" [quiet_post]
              5000 5000 900000) as (_ & _ & Hnone & Hin & Hout).
  split; [exact Hin|]. split; [exact Hout|]. apply Hnone. reflexivity.
Defined.

Lemma zero_threshold_is_no_threshold_witness :
  nth_error zero_args 1 = Some "rust"
  /\ getOpt zero_args "min-upvotes" = Some "0"
  /\ filterEngagement no_numerals [quiet_post; loud_post]
       (mkEngagement (Some (Int 0)) None) = [quiet_post; loud_post]
  /\ cmdSearch no_numerals no_escapes zero_args search_world
     = cmdSearch_load no_numerals no_escapes zero_args "rust" search_world
  /\ match (cmdSearch no_numerals no_escapes zero_args search_world).1 with
     | Ok (posts, fromCache) =>
         map upvotes posts = [VNum (Int 0)] /\ fromCache = false
     | Throw _ => False
     end.
Proof.
  split; [reflexivity|]. split; [reflexivity|].
  destruct (zero_threshold_is_no_threshold no_numerals no_escapes
              [quiet_post; loud_post] zero_args "rust" search_world
              eq_refl ltac:(discriminate) eq_refl)
    as (_ & _ & Hall & _ & _ & _ & Hcmd).
  split; [exact Hall|]. split; [exact Hcmd|].
  vm_compute. split; reflexivity.
Defined.

(** ** Runs of the further properties on the samples *)

Lemma reposted_primitive :
  Forall (fun p => primitive (post_id p) = true) reposted.
Proof. repeat constructor. Defined.

Lemma dedupe_keeps_first_witness :
  Forall (fun p => primitive (post_id p) = true) reposted
  /\ dedupe reposted = three_posts
  /\ NoDup (post_id <$> dedupe reposted)
  /\ sublist (dedupe reposted) reposted
  /\ forall i, primitive i = true ->
       find (fun p => same_value_zero i (post_id p)) (dedupe reposted)
       = find (fun p => same_value_zero i (post_id p)) reposted.
Proof.
  split; [exact reposted_primitive|]. split; [reflexivity|].
  exact (dedupe_keeps_first reposted reposted_primitive).
Defined.

Lemma dedupe_idempotent_witness :
  Forall (fun p => primitive (post_id p) = true) reposted
  /\ dedupe (dedupe reposted) = dedupe reposted
  /\ (NoDup (post_id <$> reposted) -> dedupe reposted = reposted).
Proof.
  split; [exact reposted_primitive|].
  exact (dedupe_idempotent reposted reposted_primitive).
Defined.

Lemma three_posts_comments p :
  p ∈ three_posts ->
  toNumber no_numerals (metric_of "comments" p) = Int (comments_of p).
Proof.
  intros Hp. unfold three_posts in Hp.
  repeat (apply elem_of_cons in Hp as [->|Hp]; [reflexivity|]).
  inversion Hp.
Defined.

Lemma three_posts_upvotes p :
  p ∈ three_posts ->
  toNumber no_numerals (metric_of "upvotes" p) = Int (upvotes_of p).
Proof.
  intros Hp. unfold three_posts in Hp.
  repeat (apply elem_of_cons in Hp as [->|Hp]; [reflexivity|]).
  inversion Hp.
Defined.

Lemma sortBy_sorted_witness :
  map comments_of (sortBy no_numerals three_posts "comments") = [50; 5; 1]%Z
  /\ sortBy no_numerals three_posts "comments" ≡ₚ three_posts
  /\ descending comments_of (sortBy no_numerals three_posts "comments").
Proof.
  split; [reflexivity|].
  exact (sortBy_sorted no_numerals three_posts "comments" comments_of
           three_posts_comments).
Defined.

Lemma sortBy_stable_witness :
  map post_id (sortBy no_numerals three_posts "upvotes")
  = [VStr "a"; VStr "b"; VStr "c"]
  /\ List.filter (fun p => (upvotes_of p =? 10)%Z)
       (sortBy no_numerals three_posts "upvotes")
     = List.filter (fun p => (upvotes_of p =? 10)%Z) three_posts.
Proof.
  split; [reflexivity|].
  exact (sortBy_stable no_numerals three_posts "upvotes" upvotes_of 10
           three_posts_upvotes).
Defined.

Lemma limit_not_before : ("--" +:+ "limit") ∉ ["search"; "rust"].
Proof.
  intros H. repeat (apply elem_of_cons in H as [H|H]; [discriminate H|]).
  inversion H.
Defined.

Lemma getOpt_reads_first_witness :
  getOpt ["search"; "rust"; "--limit"; "5"; "--json"; "--limit"; "9"] "limit"
  = Some "5"
  /\ getOpt ["search"; "rust"; "--limit"] "limit" = None
  /\ getOpt ["search"; "rust"] "limit" = None.
Proof.
  exact (getOpt_reads_first ["search"; "rust"] ["--json"; "--limit"; "9"]
           "limit" "5" limit_not_before).
Defined.



Lemma only_more_tree : comment_tree only_more_node.
Proof.
  apply (comment_node only_more_node only_more_data [more_node]
           eq_refl eq_refl eq_refl).
  - repeat constructor.
  - constructor; [intros H; discriminate H | constructor].
Defined.

Lemma nested3_tree : comment_tree nested3.
Proof.
  apply (comment_node nested3 nested3_data [only_more_node]
           eq_refl eq_refl eq_refl).
  - repeat constructor.
  - constructor; [intros _; exact only_more_tree | constructor].
Defined.

Lemma parseComment_total_witness :
  comment_tree nested3
  /\ exists c, parseComment nested3 4 = Ok c /\ nested_from 4 c.
Proof.
  split; [exact nested3_tree|].
  exact (parseComment_total nested3 4 nested3_tree).
Defined.

Lemma threadResult_shapes_witness :
  threadResult (VArr [listing [bare_post]]) = Throw TypeError
  /\ threadResult (VArr [listing []; listing [nested3]]) = Throw TypeError
  /\ exists p, parsePost bare_post = Ok p
       /\ threadResult (VArr [listing [bare_post]; VObj [("data", VObj [])]])
          = Ok (mkThread p []).
Proof.
  destruct (threadResult_shapes (listing [bare_post])
              (VObj [("data", VObj [])])
              (VObj [("children", VArr [bare_post]); ("after", VNull)]))
    as (Hone & _ & Hnone).
  destruct (threadResult_shapes (listing []) (listing [nested3])
              (VObj [("children", VArr []); ("after", VNull)]))
    as (_ & Hempty & _).
  split; [exact Hone|]. split; [exact (Hempty eq_refl eq_refl)|].
  eexists. split; [reflexivity|].
  exact (Hnone bare_post [] (VObj []) VUndef _ eq_refl eq_refl eq_refl
           eq_refl eq_refl eq_refl).
Defined.

Lemma getToken_without_credentials_witness :
  credentials_missing (env no_credentials_world) = true
  /\ token_fresh no_credentials_world = false
  /\ getToken no_numerals no_credentials_world
     = (Throw missing_credentials_error, no_credentials_world)
  /\ apiGet no_numerals "/search?q=rust" no_credentials_world
     = (Throw missing_credentials_error, no_credentials_world).
Proof.
  split; [reflexivity|]. split; [reflexivity|].
  exact (proj2 (getToken_without_credentials no_numerals
                  no_credentials_world "/search?q=rust" eq_refl) eq_refl).
Defined.

Lemma getToken_failure_retries_witness :
  token_fresh rejected_world = false
  /\ exists w',
      getToken no_numerals rejected_world
      = (Throw (Error "OAuth2 authentication failed: Unauthorized"), w')
      /\ accessToken w' = VNull
      /\ tokenExpiry w' = Int 0
      /\ sent w' = 1
      /\ auth_calls (log w') = 1
      /\ token_fresh w' = false.
Proof.
  split; [reflexivity|].
  exact (getToken_failure_retries no_numerals rejected_world
           sample_credentials eq_refl eq_refl eq_refl).
Defined.

Lemma apiGet_requests_witness :
  exists r w',
    apiGet no_numerals "/user/alice/about" serving_world = (r, w')
    /\ api_endpoints (log w') = ["/user/alice/about"]
    /\ auth_calls (log w') <= 1
    /\ ((exists e, getToken no_numerals serving_world = (Throw e, w')
                   /\ r = Throw e
                   /\ api_times (log w') = [])
        \/ (exists tok w1,
              getToken no_numerals serving_world = (Ok tok, w1)
              /\ api_times (log w') = ([] ++ [now w1])%list
              /\ api_endpoints (log w') = ([] ++ ["/user/alice/about"])%list
              /\ sent w' = S (sent w1))).
Proof.
  eexists _, _. split; [reflexivity|]. split; [reflexivity|].
  exact (apiGet_requests no_numerals "/user/alice/about" serving_world
           _ _ eq_refl).
Defined.

Lemma api_error_surfaces_witness :
  token_fresh failing_world = true
  /\ resp_ok (net failing_world (sent failing_world)) = false
  /\ (search no_numerals no_escapes "rust"
        (mkSearchOpts None None None None None) failing_world).1
     = Throw (Error "Reddit API error: 404 Not Found")
  /\ (subreddit no_numerals no_escapes "programming" "hot"
        (mkListingOpts None None None) failing_world).1
     = Throw (Error "Reddit API error: 404 Not Found")
  /\ (thread no_numerals no_escapes "test" "abc" default_thread_opts
        failing_world).1
     = Throw (Error "Reddit API error: 404 Not Found")
  /\ (profile no_numerals no_escapes "alice" None failing_world).1
     = Throw (Error "Reddit API error: 404 Not Found")
  /\ sent (profile no_numerals no_escapes "alice" None failing_world).2 = 1.
Proof.
  split; [reflexivity|]. split; [reflexivity|].
  exact (api_error_surfaces no_numerals no_escapes failing_world
           "rust" "programming" "hot" "test" "abc" "alice"
           (mkSearchOpts None None None None None)
           (mkListingOpts None None None) default_thread_opts None
           eq_refl eq_refl).
Defined.

Lemma profile_two_requests_witness :
  exists user posts w',
    profile no_numerals no_escapes "alice" (Some (Int 3)) profile_world
    = (Ok (user, posts), w')
    /\ user_name user = VStr "alice"
    /\ comment_karma user = VNum (Int 0)
    /\ exists t1 t2,
        api_times (log w') = ([] ++ [t1; t2])%list
        /\ (t1 + RATE_DELAY_MS <= t2)%Z
        /\ api_endpoints (log w')
           = ([] ++ ["/user/" +:+ "alice" +:+ "/about";
                     "/user/" +:+ "alice" +:+ "/submitted?"
                       +:+ params_toString no_escapes
                             [("limit",
                               num_toString (opt_or (Some (Int 3)) 10));
                              ("raw_json", "1")]])%list.
Proof.
  eexists _, _, _. split; [vm_compute; reflexivity|].
  split; [reflexivity|]. split; [reflexivity|].
  exact (profile_two_requests no_numerals no_escapes "alice" (Some (Int 3))
           profile_world _ _ _ eq_refl).
Defined.

Lemma operations_keep_pace_witness :
  paced (now profile_world) (log profile_world)
  /\ paced
       (now (profile no_numerals no_escapes "alice" None profile_world).2)
       (log (profile no_numerals no_escapes "alice" None profile_world).2)
  /\ api_times
       (log (profile no_numerals no_escapes "alice" None profile_world).2)
     = [1700000000000; 1700000000690]%Z.
Proof.
  split; [exact I|]. split; [|reflexivity].
  destruct (operations_keep_pace no_numerals no_escapes fixed_stamp
              "rust" "programming" "hot" "test" "abc" "alice"
              (mkSearchOpts None None None None None)
              (mkListingOpts None None None) default_thread_opts None
              zero_args ["alice"] None)
    as (_ & _ & _ & Hprofile & _).
  exact (Hprofile profile_world _ _ eq_refl I).
Defined.

Lemma cmdSearch_hit_witness :
  nth_error zero_args 1 = Some "rust"
  /\ cmdSearch no_numerals no_escapes
       ["search"; "rust"; "--min-upvotes"; "100"] cached_world
     = (Ok ([loud_post], true), cached_world).
Proof.
  split; [reflexivity|].
  exact (cmdSearch_hit no_numerals no_escapes
           ["search"; "rust"; "--min-upvotes"; "100"] "rust"
           [quiet_post; loud_post] cached_world eq_refl
           ltac:(discriminate) ltac:(vm_compute; reflexivity)).
Defined.

Lemma timeAgo_units_witness :
  timeAgo no_numerals VUndef serving_world = (Ok "NaNd", serving_world)
  /\ timeAgo no_numerals (VNum (Int 1699999000)) serving_world
     = (Ok "16m", serving_world)
  /\ timeAgo no_numerals (VNum (Int 1699990000)) serving_world
     = (Ok "2h", serving_world)
  /\ timeAgo no_numerals (VNum (Int 1699000000)) serving_world
     = (Ok "11d", serving_world)
  /\ timeAgo no_numerals (VNum (Int 1700000090)) serving_world
     = (Ok "-2m", serving_world).
Proof.
  split; [exact (proj1 (timeAgo_units no_numerals VUndef serving_world)
                   eq_refl)|].
  split; [exact (proj2 (timeAgo_units no_numerals (VNum (Int 1699999000))
                          serving_world) 1699999000%Z eq_refl)|].
  split; [exact (proj2 (timeAgo_units no_numerals (VNum (Int 1699990000))
                          serving_world) 1699990000%Z eq_refl)|].
  split; [exact (proj2 (timeAgo_units no_numerals (VNum (Int 1699000000))
                          serving_world) 1699000000%Z eq_refl)|].
  exact (proj2 (timeAgo_units no_numerals (VNum (Int 1700000090))
                  serving_world) 1700000090%Z eq_refl).
Defined.

Lemma watchlist_add_remove_witness :
  on_watchlist "alice"
    (loadWatchlist
       (Some [mkWatchUser "bob" (Some "Artist") "2023-01-01T00:00:00.000Z"]))
  = false
  /\ exists entry,
      wu_username entry = "alice"
      /\ cmdWatchlist no_numerals no_escapes fixed_stamp
           ["watchlist"; "add"; "alice"; "Core"; "dev"]
           (Some [mkWatchUser "bob" (Some "Artist")
                    "2023-01-01T00:00:00.000Z"]) serving_world
         = (Ok (Some ([mkWatchUser "bob" (Some "Artist")
                         "2023-01-01T00:00:00.000Z"] ++ [entry])%list),
            serving_world)
      /\ cmdWatchlist no_numerals no_escapes fixed_stamp
           ["watchlist"; "add"; "alice"]
           (Some ([mkWatchUser "bob" (Some "Artist")
                     "2023-01-01T00:00:00.000Z"] ++ [entry])%list)
           serving_world
         = (Ok (Some ([mkWatchUser "bob" (Some "Artist")
                         "2023-01-01T00:00:00.000Z"] ++ [entry])%list),
            serving_world)
      /\ cmdWatchlist no_numerals no_escapes fixed_stamp
           ["watchlist"; "remove"; "alice"]
           (Some ([mkWatchUser "bob" (Some "Artist")
                     "2023-01-01T00:00:00.000Z"] ++ [entry])%list)
           serving_world
         = (Ok (Some [mkWatchUser "bob" (Some "Artist")
                        "2023-01-01T00:00:00.000Z"]),
            serving_world).
Proof.
  split; [reflexivity|].
  exact (watchlist_add_remove no_numerals no_escapes fixed_stamp
           "watchlist" "alice" ["Core"; "dev"] []
           (Some [mkWatchUser "bob" (Some "Artist")
                    "2023-01-01T00:00:00.000Z"])
           serving_world ltac:(discriminate) eq_refl).
Defined.

Lemma two_names_distinct :
  NoDup (wu_username <$>
           loadWatchlist
             (Some [mkWatchUser "bob" None "2023-01-01T00:00:00.000Z";
                    mkWatchUser "carol" None "2023-01-02T00:00:00.000Z"])).
Proof.
  apply NoDup_cons. split.
  - intros H. apply elem_of_cons in H as [H|H]; [discriminate H|].
    inversion H.
  - apply NoDup_singleton.
Defined.

Lemma watchlist_names_unique_witness :
  cmdWatchlist no_numerals no_escapes fixed_stamp
    ["watchlist"; "remove"; "bob"]
    (Some [mkWatchUser "bob" None "2023-01-01T00:00:00.000Z";
           mkWatchUser "carol" None "2023-01-02T00:00:00.000Z"])
    serving_world
  = (Ok (Some [mkWatchUser "carol" None "2023-01-02T00:00:00.000Z"]),
     serving_world)
  /\ NoDup (wu_username <$>
             loadWatchlist
               (Some [mkWatchUser "carol" None "2023-01-02T00:00:00.000Z"]))
  /\ on_watchlist "bob"
       (loadWatchlist
          (Some [mkWatchUser "carol" None "2023-01-02T00:00:00.000Z"]))
     = false.
Proof.
  split; [reflexivity|].
  destruct (watchlist_names_unique no_numerals no_escapes fixed_stamp
              ["watchlist"; "remove"; "bob"]
              (Some [mkWatchUser "bob" None "2023-01-01T00:00:00.000Z";
                     mkWatchUser "carol" None "2023-01-02T00:00:00.000Z"])
              (Some [mkWatchUser "carol" None "2023-01-02T00:00:00.000Z"])
              serving_world serving_world two_names_distinct eq_refl)
    as [Hnd Hgone].
  split; [exact Hnd|].
  exact (proj1 (Hgone "watchlist" "bob" [] eq_refl ltac:(discriminate))).
Defined.

Lemma usage_errors_witness :
  cmdSearch no_numerals no_escapes ["search"] fresh_world
  = (Throw (Exit 1), fresh_world)
  /\ cmdThread no_numerals no_escapes ["thread"; "abc"] fresh_world
     = (Throw (Exit 1), fresh_world)
  /\ cmdWatchlist no_numerals no_escapes fixed_stamp ["watchlist"; "add"]
       None fresh_world
     = (Throw (Exit 1), fresh_world)
  /\ cmdWatchlist no_numerals no_escapes fixed_stamp ["watchlist"; "purge"]
       None fresh_world
     = (Throw (Exit 1), fresh_world).
Proof.
  destruct (usage_errors no_numerals no_escapes fixed_stamp ["search"] None
              fresh_world) as (Hsearch & _).
  destruct (usage_errors no_numerals no_escapes fixed_stamp
              ["thread"; "abc"] None fresh_world) as (_ & Hthread & _).
  destruct (usage_errors no_numerals no_escapes fixed_stamp
              ["watchlist"; "add"] None fresh_world) as (_ & _ & Hadd & _).
  destruct (usage_errors no_numerals no_escapes fixed_stamp
              ["watchlist"; "purge"] None fresh_world)
    as (_ & _ & _ & Hother).
  split; [exact (proj1 (Hsearch eq_refl))|].
  split; [exact (Hthread eq_refl)|].
  split; [exact (Hadd "add" eq_refl (or_introl eq_refl) eq_refl)|].
  exact (Hother "purge" eq_refl ltac:(discriminate) ltac:(discriminate)
           ltac:(discriminate) ltac:(discriminate) ltac:(discriminate)).
Defined.

Lemma token_without_expiry_witness :
  token_fresh no_expiry_world = false
  /\ exists w1,
      getToken no_numerals no_expiry_world = (Ok (VStr "abc123"), w1)
      /\ accessToken w1 = VStr "abc123"
      /\ tokenExpiry w1 = NaN
      /\ forall w2, tokenExpiry w2 = tokenExpiry w1 ->
                    token_fresh w2 = false.
Proof.
  split; [reflexivity|].
  exact (token_without_expiry no_numerals no_expiry_world
           sample_credentials
           (VObj [("access_token", VStr "abc123")]) (VStr "abc123") VUndef
           eq_refl eq_refl eq_refl eq_refl eq_refl eq_refl eq_refl).
Defined.
